(** * audioDiarization: the batch job client (sarvam.js) and the
      synchronous transcript formatter (main.js)

    A shallow embedding of the two scripts.  The batch client talks to a
    remote service and to the file system; both are made explicit here:
    the answers of the outside world are collected in an environment
    record, and the state the script mutates (the client object, the
    files on disk, everything it printed or requested) is threaded
    through a small state-and-exception monad. *)

From Stdlib Require Import QArith Qround Ascii.
From stdpp Require Import base strings list gmap pretty.

Set Warnings "-register-all".

Local Open Scope string_scope.
Local Open Scope list_scope.

(** ** JavaScript values *)

Module Js.

(** The fragment of JSON values the scripts inspect: response bodies are
    objects, arrays or strings, and a missing field reads as [undefined].
    Objects are association lists; the first binding of a key is the one
    a property read finds. *)
Inductive jsval : Type :=
| JUndefined
| JNull
| JStr (s : string)
| JObj (fields : list (string * jsval))
| JArr (items : list jsval).

(** What [throw] carries.  [err_response_data] is [error.response?.data]
    ([JUndefined] when the error has no response, as for a transport
    failure or a TypeError); [err_message] is [error.message]. *)
Record error : Type := Error {
  err_response_data : jsval;
  err_message : string
}.

Definition nl : string := String "010"%char "".

(** [new Error(msg)] and the TypeError of a property read on
    null/undefined. *)
Definition mkError (msg : string) : error := Error JUndefined msg.

Definition typeError (msg : string) : error := Error JUndefined msg.

Fixpoint assoc (k : string) (fields : list (string * jsval)) : jsval :=
  match fields with
  | [] => JUndefined
  | (k', v) :: rest => if String.eqb k k' then v else assoc k rest
  end.

(** [v.p] for the property names the scripts read (none of them is an
    own property of a string or an array). *)
Definition get_prop (v : jsval) (p : string) : error + jsval :=
  match v with
  | JUndefined => inl (typeError ("Cannot read properties of undefined (reading '" +:+ p +:+ "')"))
  | JNull => inl (typeError ("Cannot read properties of null (reading '" +:+ p +:+ "')"))
  | JStr _ => inr JUndefined
  | JObj fields => inr (assoc p fields)
  | JArr _ => inr JUndefined
  end.

Fixpoint join (sep : string) (l : list string) : string :=
  match l with
  | [] => ""
  | [s] => s
  | s :: rest => s +:+ sep +:+ join sep rest
  end.

(** ToString, as a template literal applies it. *)
Fixpoint to_String (v : jsval) : string :=
  match v with
  | JUndefined => "undefined"
  | JNull => "null"
  | JStr s => s
  | JObj _ => "[object Object]"
  | JArr items =>
      join "," (map (fun x => match x with
                              | JUndefined | JNull => ""
                              | _ => to_String x
                              end) items)
  end.

(** [v === 'lit'] *)
Definition strict_eq_str (v : jsval) (lit : string) : bool :=
  match v with
  | JStr s => String.eqb s lit
  | _ => false
  end.

Definition truthy (v : jsval) : bool :=
  match v with
  | JUndefined | JNull => false
  | JStr s => negb (String.eqb s "")
  | JObj _ | JArr _ => true
  end.

(** [a || b] *)
Definition or_else (a b : jsval) : jsval := if truthy a then a else b.

(** A byte of the form 10xxxxxx, which continues a UTF-8 sequence. *)
Definition is_continuation (c : ascii) : bool :=
  ((128 <=? N_of_ascii c) && (N_of_ascii c <? 192))%N.

(** The code points of a string held as UTF-8 bytes: each leading byte
    with the continuation bytes that follow it. *)
Fixpoint code_points (s : string) : list string :=
  match s with
  | EmptyString => []
  | String c rest =>
      match code_points rest with
      | String c' cp :: more =>
          if is_continuation c' then String c (String c' cp) :: more
          else String c "" :: String c' cp :: more
      | other => String c "" :: other
      end
  end.

(** The values a [for (const x of v)] visits; a string is visited code
    point by code point, anything else that is not an array is not
    iterable. *)
Definition iterate (v : jsval) : error + list jsval :=
  match v with
  | JArr items => inr items
  | JStr s => inr (map JStr (code_points s))
  | _ => inl (typeError "listResponse.data is not iterable")
  end.

(** [s.startsWith(p)] *)
Definition startsWith (s p : string) : bool := String.prefix p s.

(** [s.split(sep)] for a one-character separator: never empty, and a
    trailing separator leaves a final empty piece. *)
Fixpoint split (sep : ascii) (s : string) : list string :=
  match s with
  | EmptyString => [EmptyString]
  | String c s' =>
      if Ascii.eqb c sep then EmptyString :: split sep s'
      else match split sep s' with
           | seg :: rest => String c seg :: rest
           | [] => [String c EmptyString]
           end
  end.

(** [arr.pop()] as far as its value goes: the last element, [undefined]
    on an empty array. *)
Definition pop (l : list string) : jsval :=
  match last l with
  | Some s => JStr s
  | None => JUndefined
  end.

Definition hex_digit (n : N) : ascii :=
  (match n with
   | 0 => "0" | 1 => "1" | 2 => "2" | 3 => "3" | 4 => "4"
   | 5 => "5" | 6 => "6" | 7 => "7" | 8 => "8" | 9 => "9"
   | 10 => "A" | 11 => "B" | 12 => "C" | 13 => "D" | 14 => "E"
   | _ => "F"
   end%N)%char.

Definition unreserved (c : ascii) : bool :=
  let n := N_of_ascii c in
  ((65 <=? n) && (n <=? 90) || (97 <=? n) && (n <=? 122) || (48 <=? n) && (n <=? 57))%N
  || bool_decide (c ∈ ["-"; "_"; "."; "!"; "~"; "*"; "'"; "("; ")"]%char).

(** [encodeURIComponent] on the UTF-8 bytes of the string. *)
Fixpoint encodeURIComponent (s : string) : string :=
  match s with
  | EmptyString => EmptyString
  | String c s' =>
      if unreserved c then String c (encodeURIComponent s')
      else let n := N_of_ascii c in
           String "%" (String (hex_digit (n / 16)) (String (hex_digit (n mod 16))
             (encodeURIComponent s')))
  end.

End Js.

(** ** sarvam.js *)

Module Sarvam.
Import Js.

(** The constants at the head of the script, and the two the poll loop
    declares ([maxAttempts], [interval], in milliseconds). *)
Record config : Type := Config {
  AUDIO_SOURCE : string;
  DESTINATION_DIR : string;
  BASE_URL : string;
  maxAttempts : nat;
  interval : Z
}.

Definition source_config : config := {|
  AUDIO_SOURCE := "https://oriserve-speech-analytics.s3.amazonaws.com/SIGMA/2024-08-21/7898345058_Pre_Team_Pre_Team_Sumit_K_1004_predictive__20240816081801-stereo.wav";
  DESTINATION_DIR := "./output";
  BASE_URL := "https://api.sarvam.ai/call-analytics/";
  maxAttempts := 60;
  interval := 10000
|}.

Inductive method : Type := GET | POST | PUT.

Inductive operation : Type :=
| InitializeJob | UploadFile | StartJob | CheckJobStatus | DownloadResults
| GetAudioStream.

Definition operation_eqb (a b : operation) : bool :=
  match a, b with
  | InitializeJob, InitializeJob | UploadFile, UploadFile
  | StartJob, StartJob | CheckJobStatus, CheckJobStatus
  | DownloadResults, DownloadResults | GetAudioStream, GetAudioStream => true
  | _, _ => false
  end.

(** Everything the script does that the outside can observe, in the
    order it does it. [Invoke] marks the entry of a client method. *)
Inductive event : Type :=
| Invoke (op : operation)
| ConsoleLog (args : list jsval)
| ConsoleError (args : list jsval)
| Http (m : method) (url : jsval)
| Sleep (ms : Z)
| ExistsSync (path : string)
| MkdirSync (path : string)
| CreateReadStream (path : string)
| CreateWriteStream (path : string)
| WriterFinish (path : string)
| WriterError (path : string)
| ProcessExit (code : Z).

(** A settled promise of a remote call. *)
Inductive response (A : Type) : Type :=
| Resolved (data : A)
| Rejected (e : error).
Arguments Resolved {A} data.
Arguments Rejected {A} e.

(** How piping a download into a local file ends: the writer signals
    [finish], or [error]; in the second case [written] says how many
    bytes had reached the disk ([None]: the file was never opened). *)
Inductive write_outcome : Type :=
| Finished
| Errored (e : error) (written : option nat).

(** The answers of the outside world during one run. [status_response k]
    answers the status request that follows [k] earlier ones. *)
Record env : Type := Env {
  SARVAM_API_KEY : option string;
  init_response : response jsval;
  source_response : response (list Byte.byte);
  upload_response : string -> response jsval;
  start_response : response jsval;
  status_response : nat -> response jsval;
  list_response : response jsval;
  file_response : string -> response (list Byte.byte);
  mkdir_result : option error;
  write_result : string -> write_outcome
}.

(** The state the script reads and writes: the three fields of the
    client object, the local file system, and the events so far, most
    recent first. *)
Record world : Type := World {
  jobId : jsval;
  inputStoragePath : jsval;
  outputStoragePath : jsval;
  files : gmap string (list Byte.byte);
  dirs : gset string;
  trace : list event
}.

(** [new SarvamBatchClient()] on a given disk. *)
Definition fresh (fs : gmap string (list Byte.byte)) (ds : gset string) : world :=
  World JNull JNull JNull fs ds [].

Definition history (w : world) : list event := rev (trace w).

Fixpoint count_if (p : event -> bool) (l : list event) : nat :=
  match l with
  | [] => 0
  | e :: l' => (if p e then 1 else 0) + count_if p l'
  end.

Definition count_events (p : event -> bool) (w : world) : nat :=
  count_if p (trace w).

Definition is_invoke (op : operation) (e : event) : bool :=
  match e with
  | Invoke op' => operation_eqb op op'
  | _ => false
  end.

Definition is_sleep (e : event) : bool :=
  match e with
  | Sleep _ => true
  | _ => false
  end.

Definition calls (op : operation) (w : world) : nat := count_events (is_invoke op) w.

Definition sleeps (w : world) : nat := count_events is_sleep w.

(** *** Control flow *)

(** How a piece of the script ends: normally with a value, by a
    [return] out of [main], by a [throw], or by [process.exit]. *)
Inductive completion (A : Type) : Type :=
| Normal (a : A)
| Returned
| Thrown (e : error)
| Exited (code : Z).
Arguments Normal {A} a.
Arguments Returned {A}.
Arguments Thrown {A} e.
Arguments Exited {A} code.

Definition M (A : Type) : Type := world -> completion A * world.

Definition ret {A} (a : A) : M A := fun w => (Normal a, w).

Definition bind {A B} (m : M A) (k : A -> M B) : M B :=
  fun w =>
    match m w with
    | (Normal a, w') => k a w'
    | (Returned, w') => (Returned, w')
    | (Thrown e, w') => (Thrown e, w')
    | (Exited c, w') => (Exited c, w')
    end.

Notation "'let*' x ':=' m 'in' k" := (bind m (fun x => k))
  (at level 10, x name, m at level 100, k at level 200).
Notation "m >> k" := (bind m (fun _ => k))
  (at level 90, right associativity).

Definition throw {A} (e : error) : M A := fun w => (Thrown e, w).

Definition return_ {A} : M A := fun w => (Returned, w).

(** [try { m } catch (error) { h error }] *)
Definition try_catch {A} (m : M A) (h : error -> M A) : M A :=
  fun w =>
    match m w with
    | (Thrown e, w') => h e w'
    | r => r
    end.

Definition lift {A} (r : error + A) : M A :=
  match r with
  | inl e => throw e
  | inr a => ret a
  end.

Definition emit (e : event) : M unit :=
  fun w => (Normal tt,
            World (jobId w) (inputStoragePath w) (outputStoragePath w)
                  (files w) (dirs w) (e :: trace w)).

Definition get {A} (f : world -> A) : M A := fun w => (Normal (f w), w).

Definition console_log (args : list jsval) : M unit := emit (ConsoleLog args).

Definition console_error (args : list jsval) : M unit := emit (ConsoleError args).

Definition process_exit {A} (code : Z) : M A :=
  fun w => (Exited code, snd (emit (ProcessExit code) w)).

(** [await axios.<m>(url, ...)]: the request goes out, then the promise
    settles the way the environment says. *)
Definition axios {A} (m : method) (url : jsval) (r : response A) : M A :=
  emit (Http m url) >>
  match r with
  | Resolved data => ret data
  | Rejected e => throw e
  end.

(** [await new Promise(resolve => setTimeout(resolve, ms))] *)
Definition sleep (ms : Z) : M unit := emit (Sleep ms).

(** *** The file system *)

(** Whether something, a directory or a file, is at [path]. *)
Definition present (w : world) (path : string) : bool :=
  bool_decide (path ∈ dirs w) || bool_decide (is_Some (files w !! path)).

Definition existsSync (path : string) : M bool :=
  emit (ExistsSync path) >>
  get (fun w => present w path).

Definition mkdirSync (E : env) (path : string) : M unit :=
  emit (MkdirSync path) >>
  match mkdir_result E with
  | Some e => throw e
  | None =>
      fun w => (Normal tt,
                World (jobId w) (inputStoragePath w) (outputStoragePath w)
                      (files w) ({[path]} ∪ dirs w) (trace w))
  end.

(** The disk is keyed by the path as the script spells it; the model
    does not resolve [.], [..], doubled separators or links, so two
    spellings of one file are two keys. *)
Definition store (path : string) (content : list Byte.byte) : M unit :=
  fun w => (Normal tt,
            World (jobId w) (inputStoragePath w) (outputStoragePath w)
                  (<[path := content]> (files w)) (dirs w) (trace w)).

(** [createWriteStream(path)], [body.pipe(writer)], and the promise on
    the writer's [finish]/[error]. *)
Definition pipe_to_file (E : env) (path : string) (body : list Byte.byte) : M unit :=
  emit (CreateWriteStream path) >>
  match write_result E path with
  | Finished => store path body >> emit (WriterFinish path)
  | Errored e None => emit (WriterError path) >> throw e
  | Errored e (Some n) => store path (take n body) >> emit (WriterError path) >> throw e
  end.

(** *** The client *)

(** What [getAudioStream] hands to [uploadFile]: the body of the HTTP
    response, or a read stream on a local path. *)
Inductive stream : Type :=
| ResponseBody (content : list Byte.byte)
| FileStream (path : string).

Record audio : Type := Audio {
  audio_stream : stream;
  audio_name : string
}.

Definition set_jobId (v : jsval) : M unit :=
  fun w => (Normal tt,
            World v (inputStoragePath w) (outputStoragePath w) (files w) (dirs w) (trace w)).

Definition set_inputStoragePath (v : jsval) : M unit :=
  fun w => (Normal tt,
            World (jobId w) v (outputStoragePath w) (files w) (dirs w) (trace w)).

Definition set_outputStoragePath (v : jsval) : M unit :=
  fun w => (Normal tt,
            World (jobId w) (inputStoragePath w) v (files w) (dirs w) (trace w)).

(** [error.response?.data || error.message] *)
Definition diagnostic (e : error) : jsval :=
  or_else (err_response_data e) (JStr (err_message e)).

(** The [catch] block every client method ends with. *)
Definition log_and_rethrow {A} (label : string) (e : error) : M A :=
  console_error [JStr label; diagnostic e] >> throw e.

(** [AUDIO_SOURCE.split('/').pop() || 'audio.wav'] *)
Definition file_name (source : string) : string :=
  to_String (or_else (pop (split "/" source)) (JStr "audio.wav")).

Section Client.

Variable C : config.
Variable E : env.

Definition initializeJob : M jsval :=
  emit (Invoke InitializeJob) >>
  console_log [JStr (nl +:+ "🚀 Initializing job...")] >>
  try_catch
    (let* data := axios POST (JStr (BASE_URL C +:+ "job/init")) (init_response E) in
     console_log [JStr "Job initialized:"; data] >>
     let* job_id := lift (get_prop data "job_id") in
     set_jobId job_id >>
     let* input_storage_path := lift (get_prop data "input_storage_path") in
     set_inputStoragePath input_storage_path >>
     let* output_storage_path := lift (get_prop data "output_storage_path") in
     set_outputStoragePath output_storage_path >>
     ret data)
    (log_and_rethrow "Error initializing job:").

Definition uploadFile (fileStream : stream) (fileName : string) : M jsval :=
  emit (Invoke UploadFile) >>
  console_log [JStr (nl +:+ "📤 Uploading file to input storage...")] >>
  try_catch
    (let* input := get inputStoragePath in
     let url := to_String input +:+ "/" +:+ encodeURIComponent fileName in
     let* data := axios PUT (JStr url) (upload_response E url) in
     console_log [JStr "File uploaded successfully"] >>
     ret data)
    (log_and_rethrow "Error uploading file:").

Definition startJob : M jsval :=
  emit (Invoke StartJob) >>
  console_log [JStr (nl +:+ "▶️ Starting job...")] >>
  try_catch
    (let* data := axios POST (JStr (BASE_URL C +:+ "job")) (start_response E) in
     console_log [JStr "Job started successfully"] >>
     ret data)
    (log_and_rethrow "Error starting job:").

Definition checkJobStatus : M jsval :=
  let* earlier := get (calls CheckJobStatus) in
  emit (Invoke CheckJobStatus) >>
  console_log [JStr (nl +:+ "🔍 Checking job status...")] >>
  try_catch
    (let* id := get jobId in
     let* data := axios GET (JStr (BASE_URL C +:+ "job/" +:+ to_String id +:+ "/status"))
                        (status_response E earlier) in
     let* job_state := lift (get_prop data "job_state") in
     console_log [JStr "Current job status:"; job_state] >>
     ret data)
    (log_and_rethrow "Error checking job status:").

(** The body of the [for (const file of listResponse.data)] loop. *)
Definition download_one (file : jsval) : M unit :=
  let* output := get outputStoragePath in
  let* name := lift (get_prop file "name") in
  let fileUrl := to_String output +:+ "/" +:+ to_String name in
  let downloadPath := DESTINATION_DIR C +:+ "/" +:+ to_String name in
  let* body := axios GET (JStr fileUrl) (file_response E fileUrl) in
  pipe_to_file E downloadPath body >>
  console_log [JStr ("Downloaded: " +:+ to_String name)].

Fixpoint download_each (listing : list jsval) : M unit :=
  match listing with
  | [] => ret tt
  | file :: rest => download_one file >> download_each rest
  end.

Definition downloadResults : M unit :=
  emit (Invoke DownloadResults) >>
  console_log [JStr (nl +:+ "📥 Downloading results...")] >>
  try_catch
    (let* present := existsSync (DESTINATION_DIR C) in
     (if negb present then mkdirSync E (DESTINATION_DIR C) else ret tt) >>
     let* output := get outputStoragePath in
     let* listing := axios GET output (list_response E) in
     let* entries := lift (iterate listing) in
     download_each entries >>
     console_log [JStr "All files downloaded successfully"])
    (log_and_rethrow "Error downloading results:").

Definition getAudioStream : M audio :=
  emit (Invoke GetAudioStream) >>
  if startsWith (AUDIO_SOURCE C) "http" then
    let* body := axios GET (JStr (AUDIO_SOURCE C)) (source_response E) in
    ret (Audio (ResponseBody body) (file_name (AUDIO_SOURCE C)))
  else
    let* present := existsSync (AUDIO_SOURCE C) in
    if negb present then
      throw (mkError ("File not found: " +:+ AUDIO_SOURCE C))
    else
      emit (CreateReadStream (AUDIO_SOURCE C)) >>
      ret (Audio (FileStream (AUDIO_SOURCE C)) (file_name (AUDIO_SOURCE C))).

(** *** The workflow *)

(** The [while (attempts < maxAttempts)] loop of [main]. [remaining] is
    [maxAttempts - attempts], so the loop test is [remaining <> 0]; the
    loop is left with the last [status] seen, by [break] or by the test,
    and [main] is left altogether by the [return] of the [Failed]
    branch. *)
Fixpoint poll (remaining attempts : nat) (status : jsval) : M jsval :=
  match remaining with
  | O => ret status
  | S remaining' =>
      let attempts := S attempts in
      let* statusResponse := checkJobStatus in
      let* status := lift (get_prop statusResponse "job_state") in
      if strict_eq_str status "Completed" then
        console_log [JStr "✅ Job completed successfully!"] >>
        ret status
      else if strict_eq_str status "Failed" then
        console_log [JStr "❌ Job failed!"] >>
        let* error_message := lift (get_prop statusResponse "error_message") in
        console_log [JStr "Error:"; error_message] >>
        return_
      else
        console_log [JStr ("⏳ Current status: " +:+ to_String status +:+ " (attempt "
                           +:+ pretty attempts +:+ "/" +:+ pretty (maxAttempts C) +:+ ")")] >>
        sleep (interval C) >>
        poll remaining' attempts status
  end.

(** The [try] block of [main]. *)
Definition workflow : M unit :=
  initializeJob >>
  let* source := getAudioStream in
  uploadFile (audio_stream source) (audio_name source) >>
  startJob >>
  let* status := poll (maxAttempts C) 0 (JStr "") in
  if negb (strict_eq_str status "Completed") then
    console_log [JStr "❌ Job did not complete within expected time"] >>
    return_
  else
    downloadResults >>
    console_log [JStr (nl +:+ "=== Processing Complete ===")] >>
    console_log [JStr ("Results saved to: " +:+ DESTINATION_DIR C)].

Definition main : M unit :=
  try_catch workflow
    (fun error =>
       console_error [JStr (nl +:+ "❌ Error during processing:"); JStr (err_message error)] >>
       process_exit 1).

(** The script from its first line: the key check, then [main()]. *)
Definition script : M unit :=
  match SARVAM_API_KEY E with
  | None | Some "" =>
      console_error [JStr "Missing SARVAM_API_KEY in environment variables"] >>
      process_exit 1
  | Some _ => main
  end.

End Client.

(** Steps 1 to 3 of [main]: everything before the poll loop. *)
Definition prelude (C : config) (E : env) : M jsval :=
  initializeJob C E >>
  let* source := getAudioStream C E in
  uploadFile E (audio_stream source) (audio_name source) >>
  startJob C E.

(** Step 5 of [main]: what it does once the loop has ended on
    [Completed]. *)
Definition after_success (C : config) (E : env) : M unit :=
  downloadResults C E >>
  console_log [JStr (nl +:+ "=== Processing Complete ===")] >>
  console_log [JStr ("Results saved to: " +:+ DESTINATION_DIR C)].

(** Steps 4 and 5 of [main]: the poll loop and what follows it. *)
Definition monitor (C : config) (E : env) : M unit :=
  let* status := poll C E (maxAttempts C) 0 (JStr "") in
  if negb (strict_eq_str status "Completed") then
    console_log [JStr "❌ Job did not complete within expected time"] >>
    return_
  else
    after_success C E.

(** The status the process ends with: the argument of [process.exit] if
    it was called, 0 when the script runs to its end; an error nobody
    caught ends the process with status 1. *)
Definition exit_status {A} (r : completion A * world) : Z :=
  match fst r with
  | Exited code => code
  | Thrown _ => 1
  | Normal _ | Returned => 0
  end.

(** *** Vocabulary of the statements *)

(** [w] with the events [evs] (in the order they happened) added. *)
Definition record (evs : list event) (w : world) : world :=
  World (jobId w) (inputStoragePath w) (outputStoragePath w)
        (files w) (dirs w) (rev evs ++ trace w).

(** The response carries the given job state. *)
Definition reports (r : response jsval) (state : jsval) : Prop :=
  exists data, r = Resolved data /\ get_prop data "job_state" = inr state.

(** A state that is neither [Completed] nor [Failed]. *)
Definition nonterminal (state : jsval) : bool :=
  negb (strict_eq_str state "Completed") && negb (strict_eq_str state "Failed").

(** The response is a status object whose state is not terminal. *)
Definition pending (r : response jsval) : Prop :=
  exists state, reports r state /\ nonterminal state = true.

(** What one status check leaves in the trace. *)
Definition check_events (C : config) (id state : jsval) : list event :=
  [ Invoke CheckJobStatus;
    ConsoleLog [JStr (nl +:+ "🔍 Checking job status...")];
    Http GET (JStr (BASE_URL C +:+ "job/" +:+ to_String id +:+ "/status"));
    ConsoleLog [JStr "Current job status:"; state] ].

(** What an iteration that saw a state that is not terminal adds after
    the check. *)
Definition wait_events (C : config) (attempts : nat) (state : jsval) : list event :=
  [ ConsoleLog [JStr ("⏳ Current status: " +:+ to_String state +:+ " (attempt "
                      +:+ pretty attempts +:+ "/" +:+ pretty (maxAttempts C) +:+ ")")];
    Sleep (interval C) ].

(** [m] leaves the observation [f] of the world as it found it. *)
Definition keeps {A X} (f : world -> X) (m : M A) : Prop :=
  forall w, f (snd (m w)) = f w.

(** Adding the event [e] to the trace does not change [f]. *)
Definition deaf_to {X} (f : world -> X) (e : event) : Prop :=
  forall w, f (record [e] w) = f w.

(** [f] looks at nothing but the trace. *)
Definition trace_only {X} (f : world -> X) : Prop :=
  forall w w', trace w = trace w' -> f w = f w'.

(** [m] never ends the process. *)
Definition no_exit {A} (m : M A) : Prop :=
  forall w code, fst (m w) <> Exited code.

(** The interval slept at each [Sleep] of the trace, oldest first. *)
Definition naps (w : world) : list Z :=
  omap (fun e => match e with Sleep ms => Some ms | _ => None end) (history w).

(** What the download of one artifact that goes well leaves in the
    trace: the request, the opening of the local file, the end of the
    write, the log line. *)
Definition download_events (C : config) (output : jsval) (name : string) : list event :=
  [ Http GET (JStr (to_String output +:+ "/" +:+ name));
    CreateWriteStream (DESTINATION_DIR C +:+ "/" +:+ name);
    WriterFinish (DESTINATION_DIR C +:+ "/" +:+ name);
    ConsoleLog [JStr ("Downloaded: " +:+ name)] ].

(** The text after the last [/] of the specifier, the whole specifier
    when it has none. *)
Definition last_segment (source : string) : string :=
  default "" (last (split "/" source)).

(** Whether [!SARVAM_API_KEY] is false: the variable is set and not
    empty. *)
Definition has_key (E : env) : bool :=
  match SARVAM_API_KEY E with
  | Some (String _ _) => true
  | _ => false
  end.

(** The world the poll loop is in after [k] rounds on states that are
    not terminal, the first of them being attempt [a + 1]; [None] when
    one of the [k] status responses is rejected, has no readable state,
    or is terminal. *)
Fixpoint waited (C : config) (E : env) (k a : nat) (w : world) : option world :=
  match k with
  | O => Some w
  | S k' =>
      match status_response E (calls CheckJobStatus w) with
      | Resolved data =>
          match get_prop data "job_state" with
          | inr state =>
              if nonterminal state then
                waited C E k' (S a)
                  (record (check_events C (jobId w) state ++ wait_events C (S a) state) w)
              else None
          | inl _ => None
          end
      | Rejected _ => None
      end
  end.

(** The ways a run of the workflow can fail: a step throws [e], leaving
    the world [w']; or the service reports [Failed] after some states
    that are not terminal; or [maxAttempts] status checks pass without a
    terminal state. *)
Inductive cause : Type :=
| ByThrow (e : error) (w' : world)
| ByFailedState
| ByCeiling.

Inductive failure (C : config) (E : env) (w : world) : cause -> Prop :=
| initialization_throws e w' :
    initializeJob C E w = (Thrown e, w') ->
    failure C E w (ByThrow e w')
| source_throws x w1 e w' :
    initializeJob C E w = (Normal x, w1) ->
    getAudioStream C E w1 = (Thrown e, w') ->
    failure C E w (ByThrow e w')
| upload_throws x w1 source w2 e w' :
    initializeJob C E w = (Normal x, w1) ->
    getAudioStream C E w1 = (Normal source, w2) ->
    uploadFile E (audio_stream source) (audio_name source) w2 = (Thrown e, w') ->
    failure C E w (ByThrow e w')
| start_throws x w1 source w2 u w3 e w' :
    initializeJob C E w = (Normal x, w1) ->
    getAudioStream C E w1 = (Normal source, w2) ->
    uploadFile E (audio_stream source) (audio_name source) w2 = (Normal u, w3) ->
    startJob C E w3 = (Thrown e, w') ->
    failure C E w (ByThrow e w')
| status_check_throws x w1 k wk e w' :
    prelude C E w = (Normal x, w1) ->
    k < maxAttempts C ->
    waited C E k 0 w1 = Some wk ->
    checkJobStatus C E wk = (Thrown e, w') ->
    failure C E w (ByThrow e w')
| download_throws x w1 k wk data w2 e w' :
    prelude C E w = (Normal x, w1) ->
    k < maxAttempts C ->
    waited C E k 0 w1 = Some wk ->
    checkJobStatus C E wk = (Normal data, w2) ->
    get_prop data "job_state" = inr (JStr "Completed") ->
    downloadResults C E (record [ConsoleLog [JStr "✅ Job completed successfully!"]] w2)
    = (Thrown e, w') ->
    failure C E w (ByThrow e w')
| job_failed x w1 k data :
    prelude C E w = (Normal x, w1) ->
    k < maxAttempts C ->
    (forall i, i < k -> pending (status_response E (calls CheckJobStatus w + i))) ->
    status_response E (calls CheckJobStatus w + k) = Resolved data ->
    get_prop data "job_state" = inr (JStr "Failed") ->
    failure C E w ByFailedState
| ceiling_reached x w1 :
    prelude C E w = (Normal x, w1) ->
    (forall i, i < maxAttempts C ->
       pending (status_response E (calls CheckJobStatus w + i))) ->
    failure C E w ByCeiling.

(** A name that is one plain path segment: not empty, not [.] or [..],
    and without [/]. *)
Definition plain (name : string) : Prop :=
  name <> "" /\ name <> "." /\ name <> ".."
  /\ forall p q, name <> p +:+ "/" +:+ q.

(** The client methods entered so far, oldest first. *)
Definition invocations (w : world) : list operation :=
  omap (fun e => match e with Invoke op => Some op | _ => None end) (history w).

(** The order of the methods in a run that goes all the way, with [k]
    status checks. *)
Definition itinerary (k : nat) : list operation :=
  [InitializeJob; GetAudioStream; UploadFile; StartJob]
  ++ replicate k CheckJobStatus ++ [DownloadResults].

Fixpoint tally (op : operation) (l : list operation) : nat :=
  match l with
  | [] => 0
  | op' :: l' => (if operation_eqb op op' then 1 else 0) + tally op l'
  end.

(** The entry of the output listing has the given name. *)
Definition named (file : jsval) (name : string) : Prop :=
  get_prop file "name" = inr (JStr name).

(** What [downloadResults] does before the first download: the
    destination directory is looked up, made if it is not there, and the
    listing is requested. *)
Definition setup_events (C : config) (w : world) : list event :=
  [ Invoke DownloadResults;
    ConsoleLog [JStr (nl +:+ "📥 Downloading results...")];
    ExistsSync (DESTINATION_DIR C) ]
  ++ (if present w (DESTINATION_DIR C) then [] else [MkdirSync (DESTINATION_DIR C)])
  ++ [ Http GET (outputStoragePath w) ].

Definition prepared (C : config) (w : world) : world :=
  record (setup_events C w)
    (World (jobId w) (inputStoragePath w) (outputStoragePath w) (files w)
           (if present w (DESTINATION_DIR C) then dirs w
            else {[DESTINATION_DIR C]} ∪ dirs w)
           (trace w)).

(** What is on the local disk. *)
Definition disk (w : world) : gmap string (list Byte.byte) * gset string :=
  (files w, dirs w).

(** The URL [uploadFile] sends the audio to. *)
Definition upload_url (w : world) (fileName : string) : string :=
  to_String (inputStoragePath w) +:+ "/" +:+ encodeURIComponent fileName.

End Sarvam.

(** ** main.js *)

Module Deepgram.
Import Js.

(** One element of [resp.results.utterances], as far as the script reads
    it.  Times are seconds; a double is a rational, and the script only
    prints numbers far below 2^53, where the arithmetic of [fmt] is
    exact. *)
Record utterance : Type := Utterance {
  u_start : Q;
  u_end : Q;
  u_speaker : Z;
  u_transcript : string
}.

Record resp : Type := Resp {
  utterances : list utterance;
  metadata : jsval
}.

(** [Math.round]: the nearest integer, a tie going up. *)
Definition Math_round (t : Q) : Z := Qfloor (t + (1 # 2))%Q.

(** [n.toString()] and [String(n)] on an integer. *)
Definition toString (n : Z) : string := pretty n.

Fixpoint repeat_char (n : nat) (c : ascii) : string :=
  match n with
  | O => EmptyString
  | S n' => String c (repeat_char n' c)
  end.

(** [s.padStart(width, c)] *)
Definition padStart (width : nat) (c : ascii) (s : string) : string :=
  repeat_char (width - String.length s) c +:+ s.

(** [fmt]: [%] is the remainder that takes the sign of the dividend,
    [Math.floor(a / b)] the quotient rounded down. *)
Definition fmt (t : Q) : string :=
  let s := Math_round t in
  let h := (s / 3600)%Z in
  let m := (Z.rem s 3600 / 60)%Z in
  let sec := Z.rem s 60 in
  toString h +:+ ":" +:+ padStart 2 "0" (toString m) +:+ ":" +:+ padStart 2 "0" (toString sec).

Definition speaker_label (speaker : Z) : string :=
  "SPEAKER" +:+ padStart 2 "0" (toString speaker).

Definition line (u : utterance) : string :=
  "[" +:+ fmt (u_start u) +:+ " -> " +:+ fmt (u_end u) +:+ "] "
  +:+ speaker_label (u_speaker u) +:+ ": " +:+ u_transcript u.

Record segment : Type := Segment {
  seg_start : string;
  seg_end : string;
  seg_text : string;
  seg_speaker : string
}.

Definition to_segment (u : utterance) : segment := {|
  seg_start := fmt (u_start u);
  seg_end := fmt (u_end u);
  seg_text := u_transcript u;
  seg_speaker := speaker_label (u_speaker u)
|}.

(** [v?.p] *)
Definition opt_prop (v : jsval) (p : string) : jsval :=
  match get_prop v p with
  | inl _ => JUndefined
  | inr x => x
  end.

(** [a ?? b] *)
Definition nullish_else (a b : jsval) : jsval :=
  match a with
  | JUndefined | JNull => b
  | _ => a
  end.

(** The object the script prints. *)
Record output : Type := Output {
  raw_transcript : string;
  transcript : list segment;
  language : jsval
}.

Definition report (r : resp) : output := {|
  raw_transcript := join nl (map line (utterances r));
  transcript := map to_segment (utterances r);
  language := nullish_else (opt_prop (opt_prop (metadata r) "language") "code") (JStr "hi")
|}.

(** *** The format, in the words of the specification *)

Definition digit (d : Z) : ascii := pretty_N_char (Z.to_N d).

(** A number below 100 as two decimal digits. *)
Definition two_digits (n : Z) : string :=
  String (digit (n / 10)) (String (digit (n mod 10)) "").

(** [H:MM:SS] for a whole number of seconds: hours, then the minutes and
    the seconds left over, each on two digits. *)
Definition clock (s : Z) : string :=
  toString (s / 3600) +:+ ":" +:+ two_digits (s mod 3600 / 60) +:+ ":" +:+ two_digits (s mod 60).

(** [SPEAKERnn]: the index on two digits, or on all its digits when it
    has more. *)
Definition speaker_tag (n : Z) : string :=
  "SPEAKER" +:+ (if (n <? 100)%Z then two_digits n else toString n).

(** Times and speaker index as the service sends them: not negative. *)
Definition well_formed (u : utterance) : Prop :=
  (0 <= u_start u)%Q /\ (0 <= u_end u)%Q /\ (0 <= u_speaker u)%Z.

(** *** The script around the formatter *)





End Deepgram.


(** ** Scenarios

    A mocked service and disk, for the concrete runs. *)

Module Scenario.
Import Js Sarvam.

Definition job : jsval :=
  JObj [ ("job_id", JStr "job-1");
         ("input_storage_path", JStr "https://storage.example/in");
         ("output_storage_path", JStr "https://storage.example/out") ].

Definition state (s : string) : response jsval :=
  Resolved (JObj [("job_state", JStr s)]).

Definition failed (message : string) : response jsval :=
  Resolved (JObj [("job_state", JStr "Failed"); ("error_message", JStr message)]).

(** The status responses in the order given; once they are used up the
    job stays [Running]. *)
Definition scripted (script : list (response jsval)) (k : nat) : response jsval :=
  nth k script (state "Running").

Definition listing : jsval :=
  JArr [JObj [("name", JStr "a.json")]; JObj [("name", JStr "b.txt")]].

Definition a_json : list Byte.byte := [Byte.x7b; Byte.x22; Byte.x6f; Byte.x6b; Byte.x22; Byte.x7d].

Definition b_txt : list Byte.byte := [Byte.x68; Byte.x65; Byte.x6c; Byte.x6c; Byte.x6f; Byte.x0a].

Definition remote_file (url : string) : response (list Byte.byte) :=
  if String.eqb url "https://storage.example/out/a.json" then Resolved a_json
  else if String.eqb url "https://storage.example/out/b.txt" then Resolved b_txt
  else Rejected (Error (JStr "not found") "Request failed with status code 404").

(** A service on which every step succeeds, with the given script of
    status responses. *)
Definition service (script : list (response jsval)) : env := {|
  SARVAM_API_KEY := Some "key";
  init_response := Resolved job;
  source_response := Resolved [Byte.x52; Byte.x49; Byte.x46; Byte.x46];
  upload_response := fun _ => Resolved (JStr "");
  start_response := Resolved (JObj []);
  status_response := scripted script;
  list_response := Resolved listing;
  file_response := remote_file;
  mkdir_result := None;
  write_result := fun _ => Finished
|}.

(** The same service, refusing to initialize a job. *)
Definition service_down : env := {|
  SARVAM_API_KEY := Some "key";
  init_response := Rejected (Error (JObj [("message", JStr "forbidden")])
                                   "Request failed with status code 403");
  source_response := Resolved [];
  upload_response := fun _ => Resolved (JStr "");
  start_response := Resolved (JObj []);
  status_response := scripted [];
  list_response := Resolved listing;
  file_response := remote_file;
  mkdir_result := None;
  write_result := fun _ => Finished
|}.

Definition three_attempts : config := {|
  AUDIO_SOURCE := "https://media.example/calls/clip.wav";
  DESTINATION_DIR := "./output";
  BASE_URL := "https://api.sarvam.ai/call-analytics/";
  maxAttempts := 3;
  interval := 10000
|}.

Definition empty_disk : world := fresh ∅ ∅.

(** The service, refusing the upload. *)
Definition upload_refused : env := {|
  SARVAM_API_KEY := Some "key";
  init_response := Resolved job;
  source_response := Resolved [Byte.x52; Byte.x49; Byte.x46; Byte.x46];
  upload_response := fun _ => Rejected (Error (JStr "too large")
                                              "Request failed with status code 413");
  start_response := Resolved (JObj []);
  status_response := scripted [];
  list_response := Resolved listing;
  file_response := remote_file;
  mkdir_result := None;
  write_result := fun _ => Finished
|}.

(** The service, listing a third artifact, with b.txt missing from the
    output storage. *)
Definition b_missing : env := {|
  SARVAM_API_KEY := Some "key";
  init_response := Resolved job;
  source_response := Resolved [Byte.x52; Byte.x49; Byte.x46; Byte.x46];
  upload_response := fun _ => Resolved (JStr "");
  start_response := Resolved (JObj []);
  status_response := scripted [];
  list_response :=
    Resolved (JArr [ JObj [("name", JStr "a.json")]; JObj [("name", JStr "b.txt")];
                     JObj [("name", JStr "c.log")] ]);
  file_response := fun url =>
    if String.eqb url "https://storage.example/out/a.json" then Resolved a_json
    else if String.eqb url "https://storage.example/out/c.log" then Resolved b_txt
    else Rejected (Error (JStr "not found") "Request failed with status code 404");
  mkdir_result := None;
  write_result := fun _ => Finished
|}.

(** A client that has been given its job. *)
Definition initialized : world :=
  World (JStr "job-1") (JStr "https://storage.example/in")
        (JStr "https://storage.example/out") ∅ ∅ [].

(** A source on the local disk, a source that is not there, and a URL
    that stops at the host. *)
Definition local_source : config := {|
  AUDIO_SOURCE := "./calls/clip.wav";
  DESTINATION_DIR := "./output";
  BASE_URL := "https://api.sarvam.ai/call-analytics/";
  maxAttempts := 3;
  interval := 10000
|}.

Definition disk_with_clip : world :=
  fresh {[ "./calls/clip.wav" := [Byte.x52; Byte.x49; Byte.x46; Byte.x46] ]} ∅.

Definition host_only : config := {|
  AUDIO_SOURCE := "https://media.example";
  DESTINATION_DIR := "./output";
  BASE_URL := "https://api.sarvam.ai/call-analytics/";
  maxAttempts := 3;
  interval := 10000
|}.

(** A transcription of two utterances, in Tamil. *)
Definition sample : Deepgram.resp := {|
  Deepgram.utterances :=
    [ Deepgram.Utterance (2 # 5) (7323 # 2) 0 "vanakkam";
      Deepgram.Utterance (7323 # 2) (36125 # 1) 1 "nandri" ];
  Deepgram.metadata := JObj [("language", JObj [("code", JStr "ta")])]
|}.

End Scenario.

(** * Properties *)

Import Js.

(** ** How computations compose *)

Section Composition.
Import Sarvam.

Lemma emit_record e w : emit e w = (Normal tt, record [e] w).
Proof. reflexivity. Qed.

Lemma record_record evs evs' w : record evs' (record evs w) = record (evs ++ evs') w.
Proof. unfold record; cbn. by rewrite rev_app_distr, app_assoc. Qed.

Lemma bind_normal {A B} (m : M A) (k : A -> M B) w a w' :
  m w = (Normal a, w') -> bind m k w = k a w'.
Proof. unfold bind. by intros ->. Qed.

Lemma bind_thrown {A B} (m : M A) (k : A -> M B) w e w' :
  m w = (Thrown e, w') -> bind m k w = (Thrown e, w').
Proof. unfold bind. by intros ->. Qed.

Lemma bind_returned {A B} (m : M A) (k : A -> M B) w w' :
  m w = (Returned, w') -> bind m k w = (Returned, w').
Proof. unfold bind. by intros ->. Qed.

Lemma bind_assoc {A B D} (m : M A) (k : A -> M B) (k' : B -> M D) w :
  bind (bind m k) k' w = bind m (fun a => bind (k a) k') w.
Proof. unfold bind. by destruct (m w) as [[]]. Qed.

(** *** What a computation leaves alone *)

Context {X : Type} (f : world -> X).

Lemma keeps_ret {A} (a : A) : keeps f (ret a).
Proof. by intros w. Qed.

Lemma keeps_throw {A} e : keeps f (@throw A e).
Proof. by intros w. Qed.

Lemma keeps_return {A} : keeps f (@return_ A).
Proof. by intros w. Qed.

Lemma keeps_get {A} (g : world -> A) : keeps f (get g).
Proof. by intros w. Qed.

Lemma keeps_lift {A} (r : error + A) : keeps f (lift r).
Proof. by destruct r; intros w. Qed.

Lemma keeps_bind {A B} (m : M A) (k : A -> M B) :
  keeps f m -> (forall a, keeps f (k a)) -> keeps f (bind m k).
Proof.
  intros Hm Hk w. unfold bind. specialize (Hm w).
  destruct (m w) as [[a| |e|c] w1]; cbn in *; try done.
  by rewrite Hk.
Qed.

Lemma keeps_try_catch {A} (m : M A) (h : error -> M A) :
  keeps f m -> (forall e, keeps f (h e)) -> keeps f (try_catch m h).
Proof.
  intros Hm Hh w. unfold try_catch. specialize (Hm w).
  destruct (m w) as [[a| |e|c] w1]; cbn in *; try done.
  by rewrite Hh.
Qed.

Lemma keeps_emit e : deaf_to f e -> keeps f (emit e).
Proof. intros He w. apply He. Qed.

Lemma keeps_process_exit {A} code :
  deaf_to f (ProcessExit code) -> keeps f (@process_exit A code).
Proof. intros He w. apply He. Qed.

Lemma keeps_axios {A} m url (r : response A) :
  deaf_to f (Http m url) -> keeps f (axios m url r).
Proof.
  intros He. unfold axios. apply keeps_bind; [by apply keeps_emit|].
  intros _. destruct r; [apply keeps_ret | apply keeps_throw].
Qed.

Lemma keeps_set_jobId v : trace_only f -> keeps f (set_jobId v).
Proof. intros Hf w. by apply Hf. Qed.

Lemma keeps_set_inputStoragePath v : trace_only f -> keeps f (set_inputStoragePath v).
Proof. intros Hf w. by apply Hf. Qed.

Lemma keeps_set_outputStoragePath v : trace_only f -> keeps f (set_outputStoragePath v).
Proof. intros Hf w. by apply Hf. Qed.

Lemma keeps_store path content : trace_only f -> keeps f (store path content).
Proof. intros Hf w. by apply Hf. Qed.

Lemma keeps_existsSync path : deaf_to f (ExistsSync path) -> keeps f (existsSync path).
Proof.
  intros He. unfold existsSync. apply keeps_bind; [by apply keeps_emit|].
  intros _. apply keeps_get.
Qed.

Lemma keeps_mkdirSync E path :
  trace_only f -> deaf_to f (MkdirSync path) -> keeps f (mkdirSync E path).
Proof.
  intros Hf He. unfold mkdirSync. apply keeps_bind; [by apply keeps_emit|].
  intros _. destruct (mkdir_result E); [apply keeps_throw|].
  intros w. by apply Hf.
Qed.

End Composition.

Lemma calls_trace_only op : Sarvam.trace_only (Sarvam.calls op).
Proof. intros w w' H. unfold Sarvam.calls, Sarvam.count_events. by rewrite H. Qed.

Lemma calls_deaf op e : Sarvam.is_invoke op e = false -> Sarvam.deaf_to (Sarvam.calls op) e.
Proof.
  intros He w. unfold Sarvam.calls, Sarvam.count_events. cbn. by rewrite He.
Qed.

Lemma sleeps_trace_only : Sarvam.trace_only Sarvam.sleeps.
Proof. intros w w' H. unfold Sarvam.sleeps, Sarvam.count_events. by rewrite H. Qed.

Lemma sleeps_deaf e : Sarvam.is_sleep e = false -> Sarvam.deaf_to Sarvam.sleeps e.
Proof.
  intros He w. unfold Sarvam.sleeps, Sarvam.count_events. cbn. by rewrite He.
Qed.

Lemma naps_trace_only : Sarvam.trace_only Sarvam.naps.
Proof. intros w w' H. unfold Sarvam.naps, Sarvam.history. by rewrite H. Qed.

Lemma naps_deaf e : Sarvam.is_sleep e = false -> Sarvam.deaf_to Sarvam.naps e.
Proof.
  intros He w. unfold Sarvam.naps, Sarvam.history. cbn.
  rewrite omap_app. destruct e; try done; cbn; by rewrite app_nil_r.
Qed.

(** Solves [keeps f m] for a trace observation [f] by following the
    structure of [m]. *)
Ltac frame :=
  repeat first
    [ progress intros
    | apply calls_trace_only | apply sleeps_trace_only | apply naps_trace_only
    | apply calls_deaf; reflexivity | apply sleeps_deaf; reflexivity
    | apply naps_deaf; reflexivity
    | apply keeps_existsSync | apply keeps_mkdirSync | apply keeps_axios
    | apply keeps_set_jobId | apply keeps_set_inputStoragePath
    | apply keeps_set_outputStoragePath | apply keeps_store
    | apply keeps_emit | apply keeps_process_exit
    | apply keeps_ret | apply keeps_throw | apply keeps_return
    | apply keeps_get | apply keeps_lift
    | apply keeps_bind | apply keeps_try_catch
    | match goal with
      | |- Sarvam.keeps _ (if ?b then _ else _) => destruct b
      | |- Sarvam.keeps _ (match ?x with _ => _ end) => destruct x
      end ].

(** ** What each step leaves alone *)

Section Frames.
Import Sarvam.

Variable C : config.
Variable E : env.

Lemma initializeJob_keeps_calls op :
  op <> InitializeJob -> keeps (calls op) (initializeJob C E).
Proof.
  intros Hop. unfold initializeJob, log_and_rethrow, console_log, console_error.
  destruct op; try done; frame.
Qed.

Lemma getAudioStream_keeps_calls op :
  op <> GetAudioStream -> keeps (calls op) (getAudioStream C E).
Proof.
  intros Hop. unfold getAudioStream, log_and_rethrow, console_log, console_error.
  destruct op; try done; frame.
Qed.

Lemma uploadFile_keeps_calls op s n :
  op <> UploadFile -> keeps (calls op) (uploadFile E s n).
Proof.
  intros Hop. unfold uploadFile, log_and_rethrow, console_log, console_error.
  destruct op; try done; frame.
Qed.

Lemma startJob_keeps_calls op :
  op <> StartJob -> keeps (calls op) (startJob C E).
Proof.
  intros Hop. unfold startJob, log_and_rethrow, console_log, console_error.
  destruct op; try done; frame.
Qed.

Lemma checkJobStatus_keeps_calls op :
  op <> CheckJobStatus -> keeps (calls op) (checkJobStatus C E).
Proof.
  intros Hop. unfold checkJobStatus, log_and_rethrow, console_log, console_error.
  destruct op; try done; frame.
Qed.

End Frames.

(** ** Leaving the process *)

Section NoExit.
Import Sarvam.

Lemma no_exit_ret {A} (a : A) : no_exit (ret a).
Proof. by intros w c. Qed.

Lemma no_exit_throw {A} e : no_exit (@throw A e).
Proof. by intros w c. Qed.

Lemma no_exit_return {A} : no_exit (@return_ A).
Proof. by intros w c. Qed.

Lemma no_exit_get {A} (g : world -> A) : no_exit (get g).
Proof. by intros w c. Qed.

Lemma no_exit_lift {A} (r : error + A) : no_exit (lift r).
Proof. by destruct r; intros w c. Qed.

Lemma no_exit_emit e : no_exit (emit e).
Proof. by intros w c. Qed.

Lemma no_exit_bind {A B} (m : M A) (k : A -> M B) :
  no_exit m -> (forall a, no_exit (k a)) -> no_exit (bind m k).
Proof.
  intros Hm Hk w c. unfold bind. specialize (Hm w).
  destruct (m w) as [[a| |e|c'] w1]; cbn in *; try done;
    first [apply Hk | by destruct (Hm c')].
Qed.

Lemma no_exit_try_catch {A} (m : M A) (h : error -> M A) :
  no_exit m -> (forall e, no_exit (h e)) -> no_exit (try_catch m h).
Proof.
  intros Hm Hh w c. unfold try_catch. specialize (Hm w).
  destruct (m w) as [[a| |e|c'] w1]; cbn in *; try done;
    first [apply Hh | by destruct (Hm c')].
Qed.

End NoExit.

(** Solves [no_exit m] by following the structure of [m]. *)
Ltac stays :=
  repeat first
    [ progress intros
    | apply no_exit_ret | apply no_exit_throw | apply no_exit_return
    | apply no_exit_get | apply no_exit_lift | apply no_exit_emit
    | apply no_exit_bind | apply no_exit_try_catch
    | match goal with
      | |- Sarvam.no_exit (if ?b then _ else _) => destruct b
      | |- Sarvam.no_exit (match ?x with _ => _ end) => destruct x
      | |- Sarvam.no_exit (fun _ => (Sarvam.Normal _, _)) => by intros ? ?
      end ].

Section Steps.
Import Sarvam.

Variable C : config.
Variable E : env.

Lemma pipe_to_file_keeps {X} (f : world -> X) path body :
  trace_only f ->
  deaf_to f (CreateWriteStream path) -> deaf_to f (WriterFinish path) ->
  deaf_to f (WriterError path) ->
  keeps f (pipe_to_file E path body).
Proof.
  intros Hf H1 H2 H3. unfold pipe_to_file.
  apply keeps_bind; [by apply keeps_emit|]. intros _.
  destruct (write_result E path) as [|e [n|]];
    repeat first [ apply keeps_bind; [|intros _] | by apply keeps_store
                 | by apply keeps_emit | apply keeps_throw ].
Qed.

Lemma download_each_keeps_calls op listing :
  op <> DownloadResults -> keeps (calls op) (download_each C E listing).
Proof.
  intros Hop. induction listing as [|file rest IH]; cbn [download_each]; [apply keeps_ret|].
  apply keeps_bind; [|by intros _].
  unfold download_one, console_log.
  frame; apply pipe_to_file_keeps; frame.
Qed.

Lemma downloadResults_keeps_calls op :
  op <> DownloadResults -> keeps (calls op) (downloadResults C E).
Proof.
  intros Hop. unfold downloadResults, log_and_rethrow, console_log, console_error.
  destruct op; try done; frame; by apply download_each_keeps_calls.
Qed.

Lemma poll_keeps_calls op n : forall a st,
  op <> CheckJobStatus -> keeps (calls op) (poll C E n a st).
Proof.
  induction n as [|n IH]; intros a st Hop; cbn [poll]; [apply keeps_ret|].
  apply keeps_bind; [by apply checkJobStatus_keeps_calls|]. intros data.
  apply keeps_bind; [apply keeps_lift|]. intros state.
  unfold console_log, sleep.
  destruct (strict_eq_str state "Completed"); [frame|].
  destruct (strict_eq_str state "Failed"); [frame|].
  apply keeps_bind; [frame|]. intros _.
  apply keeps_bind; [frame|]. intros _.
  by apply IH.
Qed.

Lemma prelude_keeps_calls op :
  op = CheckJobStatus \/ op = DownloadResults -> keeps (calls op) (prelude C E).
Proof.
  intros Hop. unfold prelude.
  apply keeps_bind; [apply initializeJob_keeps_calls; by destruct Hop as [-> | ->]|].
  intros _. apply keeps_bind; [apply getAudioStream_keeps_calls; by destruct Hop as [-> | ->]|].
  intros source. apply keeps_bind; [apply uploadFile_keeps_calls; by destruct Hop as [-> | ->]|].
  intros _. apply startJob_keeps_calls; by destruct Hop as [-> | ->].
Qed.

Lemma prelude_keeps_naps : keeps naps (prelude C E).
Proof.
  unfold prelude, initializeJob, getAudioStream, uploadFile, startJob,
    log_and_rethrow, console_log, console_error.
  frame.
Qed.

Lemma prelude_keeps_files : keeps files (prelude C E).
Proof.
  unfold prelude, initializeJob, getAudioStream, uploadFile, startJob,
    log_and_rethrow, console_log, console_error, existsSync.
  repeat first
    [ progress intros
    | by apply keeps_emit | by apply keeps_axios
    | apply keeps_bind | apply keeps_try_catch
    | apply keeps_ret | apply keeps_throw | apply keeps_get | apply keeps_lift
    | match goal with
      | |- keeps _ (if ?b then _ else _) => destruct b
      end
    | done ].
Qed.

Lemma workflow_split w :
  workflow C E w = bind (prelude C E) (fun _ => monitor C E) w.
Proof.
  unfold workflow, prelude, monitor, after_success, bind.
  destruct (initializeJob C E w) as [[a| |e|c] w1]; try done.
  destruct (getAudioStream C E w1) as [[s| |e|c] w2]; try done.
  by destruct (uploadFile E _ _ w2) as [[u| |e|c] w3].
Qed.

End Steps.

(** ** The poll loop, one iteration at a time *)

Section Polling.
Import Sarvam.

Variable C : config.
Variable E : env.

Lemma get_prop_other data p state q :
  get_prop data p = inr state -> exists v, get_prop data q = inr v.
Proof. destruct data; cbn; intros H; try done; eauto. Qed.

Lemma strict_eq_str_true v lit : strict_eq_str v lit = true <-> v = JStr lit.
Proof.
  destruct v; cbn; try (split; [done | discriminate]).
  rewrite String.eqb_eq. split; [by intros -> | by intros [= ->]].
Qed.

Lemma nonterminal_spec state :
  nonterminal state = true <->
  strict_eq_str state "Completed" = false /\ strict_eq_str state "Failed" = false.
Proof.
  unfold nonterminal.
  destruct (strict_eq_str state "Completed"), (strict_eq_str state "Failed"); cbn; intuition.
Qed.

Lemma checkJobStatus_resolved w data state :
  status_response E (calls CheckJobStatus w) = Resolved data ->
  get_prop data "job_state" = inr state ->
  checkJobStatus C E w = (Normal data, record (check_events C (jobId w) state) w).
Proof.
  intros Hr Hs.
  unfold checkJobStatus, bind, get, try_catch, axios, bind, emit, lift, console_log, emit, ret.
  cbn. rewrite Hr. cbn. rewrite Hs. cbn. reflexivity.
Qed.

Lemma checkJobStatus_rejected w e :
  status_response E (calls CheckJobStatus w) = Rejected e ->
  exists w', checkJobStatus C E w = (Thrown e, w').
Proof.
  intros Hr.
  unfold checkJobStatus, bind, get, try_catch, axios, bind, emit, lift, console_log, emit, ret.
  cbn. rewrite Hr. cbn. eauto.
Qed.

(** A state that is not terminal: log, sleep, go round again. *)
Lemma poll_step_pending n a st w data state :
  status_response E (calls CheckJobStatus w) = Resolved data ->
  get_prop data "job_state" = inr state ->
  nonterminal state = true ->
  poll C E (S n) a st w
  = poll C E n (S a) state
      (record (check_events C (jobId w) state ++ wait_events C (S a) state) w).
Proof.
  intros Hr Hs [Hc Hf]%nonterminal_spec. cbn [poll].
  rewrite (bind_normal _ _ _ _ _ (checkJobStatus_resolved w data state Hr Hs)).
  unfold bind at 1. rewrite Hs. cbn [lift ret]. rewrite Hc, Hf.
  unfold console_log, sleep. rewrite !bind_normal with (1 := emit_record _ _).
  by rewrite !record_record.
Qed.

(** [Completed]: log and [break]. *)
Lemma poll_step_completed n a st w data :
  status_response E (calls CheckJobStatus w) = Resolved data ->
  get_prop data "job_state" = inr (JStr "Completed") ->
  poll C E (S n) a st w
  = (Normal (JStr "Completed"),
     record (check_events C (jobId w) (JStr "Completed")
             ++ [ConsoleLog [JStr "✅ Job completed successfully!"]]) w).
Proof.
  intros Hr Hs. cbn [poll].
  rewrite (bind_normal _ _ _ _ _ (checkJobStatus_resolved w data _ Hr Hs)).
  unfold bind at 1. rewrite Hs. cbn [lift ret strict_eq_str String.eqb].
  unfold console_log. cbn. reflexivity.
Qed.

(** [Failed]: log the state and the message, and [return] from [main]. *)
Lemma poll_step_failed n a st w data message :
  status_response E (calls CheckJobStatus w) = Resolved data ->
  get_prop data "job_state" = inr (JStr "Failed") ->
  get_prop data "error_message" = inr message ->
  poll C E (S n) a st w
  = (Returned,
     record (check_events C (jobId w) (JStr "Failed")
             ++ [ConsoleLog [JStr "❌ Job failed!"]; ConsoleLog [JStr "Error:"; message]]) w).
Proof.
  intros Hr Hs Hm. cbn [poll].
  rewrite (bind_normal _ _ _ _ _ (checkJobStatus_resolved w data _ Hr Hs)).
  unfold bind at 1. rewrite Hs. cbn [lift ret].
  unfold console_log. cbn. unfold bind. cbn. rewrite Hm. cbn. reflexivity.
Qed.

Lemma history_record evs w : history (record evs w) = history w ++ evs.
Proof. unfold history, record; cbn. by rewrite rev_app_distr, rev_involutive. Qed.

Lemma naps_record evs w :
  naps (record evs w)
  = naps w ++ omap (fun e => match e with Sleep ms => Some ms | _ => None end) evs.
Proof. unfold naps. by rewrite history_record, omap_app. Qed.

Lemma count_if_app p l1 l2 : count_if p (l1 ++ l2) = count_if p l1 + count_if p l2.
Proof. induction l1 as [|e l1 IH]; cbn; [done|]. rewrite IH. lia. Qed.

Lemma count_if_rev p l : count_if p (rev l) = count_if p l.
Proof.
  induction l as [|e l IH]; cbn; [done|]. rewrite count_if_app, IH. cbn. lia.
Qed.

Lemma count_events_record p evs w :
  count_events p (record evs w) = count_events p w + count_if p evs.
Proof. unfold count_events, record; cbn. rewrite count_if_app, count_if_rev. lia. Qed.

(** The number of sleeps is the number of intervals slept. *)
Lemma sleeps_naps w : sleeps w = length (naps w).
Proof.
  unfold sleeps, count_events, naps, history.
  rewrite <- (count_if_rev _ (trace w)).
  induction (rev (trace w)) as [|e l IH]; cbn; [done|].
  destruct e; cbn; by rewrite IH.
Qed.

(** A run of [k] states that are not terminal takes [k] iterations, each
    with its status check and its sleep, and leaves the loop where it
    would be after them. *)
Lemma poll_skip k : forall n a st w,
  (forall i, i < k -> pending (status_response E (calls CheckJobStatus w + i))) ->
  exists st' w',
    poll C E (k + n) a st w = poll C E n (k + a) st' w'
    /\ calls CheckJobStatus w' = calls CheckJobStatus w + k
    /\ naps w' = naps w ++ replicate k (interval C)
    /\ jobId w' = jobId w /\ inputStoragePath w' = inputStoragePath w
    /\ outputStoragePath w' = outputStoragePath w
    /\ files w' = files w /\ dirs w' = dirs w
    /\ calls DownloadResults w' = calls DownloadResults w
    /\ (k = 0 -> st' = st /\ w' = w)
    /\ (0 < k -> nonterminal st' = true /\ head (trace w') = Some (Sleep (interval C))).
Proof.
  induction k as [|k IH]; intros n a st w Hp.
  - exists st, w. rewrite app_nil_r. repeat split; try done; lia.
  - destruct (Hp 0) as (state & (data & Hr & Hs) & Hn); [lia|].
    rewrite Nat.add_0_r in Hr.
    set (w1 := record (check_events C (jobId w) state ++ wait_events C (S a) state) w).
    assert (calls CheckJobStatus w1 = S (calls CheckJobStatus w)) as Hc.
    { unfold w1, calls. rewrite count_events_record. cbn. lia. }
    destruct (IH n (S a) state w1) as (st' & w' & Hrun & Hcalls & Hnaps & Hj & Hi & Ho & Hf & Hd & Hdl & H0 & Hpos).
    { intros i Hi. rewrite Hc. replace (S (calls CheckJobStatus w) + i)
        with (calls CheckJobStatus w + S i) by lia. apply Hp. lia. }
    exists st', w'.
    replace (S k + n) with (S (k + n)) by lia.
    rewrite (poll_step_pending _ _ _ _ data state Hr Hs Hn). fold w1.
    replace (S k + a) with (k + S a) by lia.
    split; [done|]. split; [lia|].
    split. { rewrite Hnaps. unfold w1. rewrite naps_record. cbn. by rewrite <- app_assoc. }
    do 6 (split; [done|]).
    split; [lia|]. intros _.
    destruct k as [|k].
    + destruct H0 as [-> ->]; [done|]. by split.
    + apply Hpos. lia.
Qed.

End Polling.

(** ** The three ways out of the poll loop *)

Section Monitoring.
Import Sarvam.

Variable C : config.
Variable E : env.

Lemma calls_record op evs w :
  calls op (record evs w) = calls op w + count_if (is_invoke op) evs.
Proof. apply count_events_record. Qed.

(** The ceiling: [maxAttempts] states, none of them terminal. *)
Lemma monitor_timeout w :
  (forall i, i < maxAttempts C ->
     pending (status_response E (calls CheckJobStatus w + i))) ->
  exists w',
    monitor C E w = (Returned, w')
    /\ calls CheckJobStatus w' = calls CheckJobStatus w + maxAttempts C
    /\ naps w' = naps w ++ replicate (maxAttempts C) (interval C)
    /\ calls DownloadResults w' = calls DownloadResults w
    /\ files w' = files w
    /\ head (trace w') = Some (ConsoleLog [JStr "❌ Job did not complete within expected time"])
    /\ (0 < maxAttempts C -> trace w' !! 1 = Some (Sleep (interval C))).
Proof.
  intros Hp.
  destruct (poll_skip C E (maxAttempts C) 0 0 (JStr "") w Hp)
    as (st' & w1 & Hrun & Hcalls & Hnaps & _ & _ & _ & Hf & _ & Hdl & H0 & Hpos).
  rewrite Nat.add_0_r in Hrun. cbn [poll] in Hrun.
  assert (strict_eq_str st' "Completed" = false) as Hnc.
  { destruct (maxAttempts C) as [|m].
    - by destruct H0 as [-> _].
    - destruct Hpos as [Hn _]; [lia|]. by apply nonterminal_spec in Hn as [? _]. }
  exists (record [ConsoleLog [JStr "❌ Job did not complete within expected time"]] w1).
  split.
  { unfold monitor. rewrite (bind_normal _ _ _ _ _ Hrun). by rewrite Hnc. }
  split; [by rewrite calls_record, Hcalls; cbn; lia|].
  split; [by rewrite naps_record, Hnaps; cbn; rewrite app_nil_r|].
  split; [by rewrite calls_record, Hdl; cbn; lia|].
  split; [done|]. split; [done|].
  intros Hm. destruct Hpos as [_ Hh]; [done|]. cbn. by destruct (trace w1).
Qed.

(** [Failed] after [k] states that are not terminal. *)
Lemma monitor_failed k w data message :
  k < maxAttempts C ->
  (forall i, i < k -> pending (status_response E (calls CheckJobStatus w + i))) ->
  status_response E (calls CheckJobStatus w + k) = Resolved data ->
  get_prop data "job_state" = inr (JStr "Failed") ->
  get_prop data "error_message" = inr message ->
  exists w',
    monitor C E w = (Returned, w')
    /\ calls CheckJobStatus w' = calls CheckJobStatus w + S k
    /\ naps w' = naps w ++ replicate k (interval C)
    /\ calls DownloadResults w' = calls DownloadResults w
    /\ files w' = files w
    /\ exists t, trace w' = ConsoleLog [JStr "Error:"; message]
                            :: ConsoleLog [JStr "❌ Job failed!"] :: t.
Proof.
  intros Hk Hp Hr Hs Hm.
  destruct (poll_skip C E k (maxAttempts C - k) 0 (JStr "") w Hp)
    as (st' & w1 & Hrun & Hcalls & Hnaps & _ & _ & _ & Hf & _ & Hdl & _ & _).
  replace (k + (maxAttempts C - k)) with (maxAttempts C) in Hrun by lia.
  destruct (maxAttempts C - k) as [|n] eqn:Hn; [lia|].
  rewrite <- Hcalls in Hr.
  rewrite (poll_step_failed C E n _ st' w1 data message Hr Hs Hm) in Hrun.
  eexists. split.
  { unfold monitor. by rewrite (bind_returned _ _ _ _ Hrun). }
  split; [by rewrite calls_record, Hcalls; cbn; lia|].
  split; [by rewrite naps_record, Hnaps; cbn; rewrite app_nil_r|].
  split; [by rewrite calls_record, Hdl; cbn; lia|].
  split; [done|]. by eexists.
Qed.

(** [Completed] after [k] states that are not terminal. *)
Lemma monitor_completed k w data :
  k < maxAttempts C ->
  (forall i, i < k -> pending (status_response E (calls CheckJobStatus w + i))) ->
  status_response E (calls CheckJobStatus w + k) = Resolved data ->
  get_prop data "job_state" = inr (JStr "Completed") ->
  exists w',
    poll C E (maxAttempts C) 0 (JStr "") w = (Normal (JStr "Completed"), w')
    /\ monitor C E w = after_success C E w'
    /\ calls CheckJobStatus w' = calls CheckJobStatus w + S k
    /\ naps w' = naps w ++ replicate k (interval C)
    /\ calls DownloadResults w' = calls DownloadResults w
    /\ outputStoragePath w' = outputStoragePath w
    /\ files w' = files w /\ dirs w' = dirs w
    /\ head (trace w') = Some (ConsoleLog [JStr "✅ Job completed successfully!"]).
Proof.
  intros Hk Hp Hr Hs.
  destruct (poll_skip C E k (maxAttempts C - k) 0 (JStr "") w Hp)
    as (st' & w1 & Hrun & Hcalls & Hnaps & _ & _ & Ho & Hf & Hd & Hdl & _ & _).
  replace (k + (maxAttempts C - k)) with (maxAttempts C) in Hrun by lia.
  destruct (maxAttempts C - k) as [|n] eqn:Hn; [lia|].
  rewrite <- Hcalls in Hr.
  rewrite (poll_step_completed C E n _ st' w1 data Hr Hs) in Hrun.
  eexists. split; [exact Hrun|]. split.
  { unfold monitor. by rewrite (bind_normal _ _ _ _ _ Hrun). }
  split; [by rewrite calls_record, Hcalls; cbn; lia|].
  split; [by rewrite naps_record, Hnaps; cbn; rewrite app_nil_r|].
  split; [by rewrite calls_record, Hdl; cbn; lia|].
  done.
Qed.

End Monitoring.

(** ** The workflow as a whole *)

Section Workflow.
Import Sarvam.

Variable C : config.
Variable E : env.

Lemma prelude_then w x w1 :
  prelude C E w = (Normal x, w1) ->
  workflow C E w = monitor C E w1
  /\ calls CheckJobStatus w1 = calls CheckJobStatus w
  /\ calls DownloadResults w1 = calls DownloadResults w
  /\ naps w1 = naps w
  /\ files w1 = files w.
Proof.
  intros H. split; [by rewrite workflow_split, (bind_normal _ _ _ _ _ H)|].
  pose proof (prelude_keeps_calls C E CheckJobStatus (or_introl eq_refl) w) as H1.
  pose proof (prelude_keeps_calls C E DownloadResults (or_intror eq_refl) w) as H2.
  pose proof (prelude_keeps_naps C E w) as H3.
  pose proof (prelude_keeps_files C E w) as H4.
  by rewrite H in H1, H2, H3, H4.
Qed.

Lemma prelude_thrown w e w' :
  prelude C E w = (Thrown e, w') -> workflow C E w = (Thrown e, w').
Proof. intros H. by rewrite workflow_split, (bind_thrown _ _ _ _ _ H). Qed.

Lemma pipe_to_file_no_exit path body : no_exit (pipe_to_file E path body).
Proof. unfold pipe_to_file, store. stays. Qed.

Lemma download_each_no_exit listing : no_exit (download_each C E listing).
Proof.
  induction listing as [|file rest IH]; cbn [download_each]; [apply no_exit_ret|].
  apply no_exit_bind; [|by intros _].
  unfold download_one, axios, console_log. stays; apply pipe_to_file_no_exit.
Qed.

Lemma poll_no_exit n : forall a st, no_exit (poll C E n a st).
Proof.
  induction n as [|n IH]; intros a st; cbn [poll]; [apply no_exit_ret|].
  apply no_exit_bind.
  { unfold checkJobStatus, axios, log_and_rethrow, console_log, console_error. stays. }
  intros data. apply no_exit_bind; [apply no_exit_lift|]. intros state.
  unfold console_log, sleep.
  destruct (strict_eq_str state "Completed"); [stays|].
  destruct (strict_eq_str state "Failed"); [stays|].
  do 2 (apply no_exit_bind; [apply no_exit_emit|]; intros _).
  apply IH.
Qed.

Lemma workflow_no_exit : no_exit (workflow C E).
Proof.
  unfold workflow.
  apply no_exit_bind.
  { unfold initializeJob, axios, log_and_rethrow, console_log, console_error,
      set_jobId, set_inputStoragePath, set_outputStoragePath. stays. }
  intros _. apply no_exit_bind.
  { unfold getAudioStream, axios, existsSync. stays. }
  intros source. apply no_exit_bind.
  { unfold uploadFile, axios, log_and_rethrow, console_log, console_error. stays. }
  intros _. apply no_exit_bind.
  { unfold startJob, axios, log_and_rethrow, console_log, console_error. stays. }
  intros _. apply no_exit_bind; [apply poll_no_exit|]. intros status.
  destruct (negb _); [unfold console_log; stays|].
  apply no_exit_bind; [|unfold console_log; stays].
  unfold downloadResults, axios, existsSync, mkdirSync, log_and_rethrow,
    console_log, console_error.
  stays; apply download_each_no_exit.
Qed.

(** [main] hands on what the [try] block did, unless it threw. *)
Lemma main_thrown w e w' :
  workflow C E w = (Thrown e, w') ->
  main C E w
  = (Exited 1,
     record [ ConsoleError [JStr (nl +:+ "❌ Error during processing:");
                            JStr (err_message e)];
              ProcessExit 1 ] w').
Proof. intros H. unfold main, try_catch. by rewrite H. Qed.

Lemma main_not_thrown w :
  (forall e w', workflow C E w <> (Thrown e, w')) ->
  main C E w = workflow C E w.
Proof.
  intros H. unfold main, try_catch.
  destruct (workflow C E w) as [[a| |e|c] w'] eqn:Hw; try done.
  by destruct (H e w').
Qed.

Lemma script_with_key w : has_key E = true -> script C E w = main C E w.
Proof.
  unfold has_key, script. by destruct (SARVAM_API_KEY E) as [[|c s]|].
Qed.

(** Without a key nothing of the workflow runs. *)
Lemma script_without_key w :
  has_key E = false ->
  script C E w
  = (Exited 1,
     record [ ConsoleError [JStr "Missing SARVAM_API_KEY in environment variables"];
              ProcessExit 1 ] w).
Proof.
  unfold has_key, script. by destruct (SARVAM_API_KEY E) as [[|c s]|].
Qed.

(** A step that throws ends the [try] block there and then: the error
    and the world are those of the step. *)
Lemma initializeJob_thrown w e w' :
  initializeJob C E w = (Thrown e, w') -> workflow C E w = (Thrown e, w').
Proof. intros H. unfold workflow. by rewrite (bind_thrown _ _ _ _ _ H). Qed.

Lemma getAudioStream_thrown w x w1 e w' :
  initializeJob C E w = (Normal x, w1) ->
  getAudioStream C E w1 = (Thrown e, w') ->
  workflow C E w = (Thrown e, w').
Proof.
  intros H1 H2. unfold workflow.
  by rewrite (bind_normal _ _ _ _ _ H1), (bind_thrown _ _ _ _ _ H2).
Qed.

Lemma monitor_thrown w x w1 e w' :
  prelude C E w = (Normal x, w1) ->
  monitor C E w1 = (Thrown e, w') ->
  workflow C E w = (Thrown e, w').
Proof. intros H1 H2. by rewrite workflow_split, (bind_normal _ _ _ _ _ H1). Qed.

End Workflow.

(** ** The claims about the workflow *)

Section WorkflowClaims.
Import Sarvam Scenario.

Lemma download_each_keeps_all_calls C E op listing :
  keeps (calls op) (download_each C E listing).
Proof.
  induction listing as [|file rest IH]; cbn [download_each]; [apply keeps_ret|].
  apply keeps_bind; [|by intros _].
  unfold download_one, console_log.
  frame; apply pipe_to_file_keeps; frame.
Qed.

(** [downloadResults] is entered once per call. *)
Lemma downloadResults_calls C E w :
  calls DownloadResults (snd (downloadResults C E w)) = S (calls DownloadResults w).
Proof.
  unfold downloadResults. unfold bind at 1. rewrite emit_record.
  match goal with |- calls _ (snd (?m ?w')) = _ => assert (keeps (calls DownloadResults) m) as H end.
  { unfold log_and_rethrow, console_log, console_error.
    frame. apply download_each_keeps_all_calls. }
  rewrite H, calls_record. cbn. lia.
Qed.

Lemma after_success_calls C E w :
  calls CheckJobStatus (snd (after_success C E w)) = calls CheckJobStatus w
  /\ calls DownloadResults (snd (after_success C E w)) = S (calls DownloadResults w).
Proof.
  unfold after_success, console_log. split.
  - assert (keeps (calls CheckJobStatus) (after_success C E)) as H.
    { unfold after_success, console_log.
      apply keeps_bind; [by apply downloadResults_keeps_calls|]. frame. }
    apply H.
  - unfold bind at 1. pose proof (downloadResults_calls C E w) as H.
    destruct (downloadResults C E w) as [[a| |e|c] w']; cbn in *; done.
Qed.

(** [k] rounds of waiting take the loop to the world [waited] gives. *)
Lemma poll_waited C E k : forall n a st w wk,
  waited C E k a w = Some wk ->
  exists st', poll C E (k + n) a st w = poll C E n (k + a) st' wk.
Proof.
  induction k as [|k IH]; intros n a st w wk Hw.
  { injection Hw as <-. by exists st. }
  cbn [waited] in Hw.
  destruct (status_response E (calls CheckJobStatus w)) as [data|e] eqn:Hr; [|done].
  destruct (get_prop data "job_state") as [err|state] eqn:Hs; [done|].
  destruct (nonterminal state) eqn:Hn; [|done].
  destruct (IH n (S a) state _ wk Hw) as [st' Hrun].
  exists st'. replace (S k + n) with (S (k + n)) by lia.
  rewrite (poll_step_pending C E _ _ _ _ data state Hr Hs Hn).
  by replace (S k + a) with (k + S a) by lia.
Qed.

(** What [main] makes of a step that throws. *)
Lemma thrown_step_exits C E w e w' :
  has_key E = true ->
  workflow C E w = (Thrown e, w') ->
  script C E w
  = (Exited 1,
     record [ ConsoleError [JStr (nl +:+ "❌ Error during processing:");
                            JStr (err_message e)];
              ProcessExit 1 ] w')
  /\ exit_status (script C E w) = 1%Z.
Proof.
  intros Hkey Hw. rewrite (script_with_key C E w Hkey).
  by rewrite (main_thrown C E w e w' Hw).
Qed.

(** C1, as the script has it: when a step throws (initializeJob,
    getAudioStream, uploadFile, startJob, a checkJobStatus call of the
    poll loop, or downloadResults) the [try] block ends there: the run
    ends in the world the step left, with nothing added but the error
    log of [main] and [process.exit(1)], so no later step runs and the
    status is 1.  When the service reports [Failed], or the attempt
    ceiling is reached, [main] returns without entering the download,
    and the process ends with status 0. *)
Theorem failed_run_exit_status C E w c :
  has_key E = true ->
  failure C E w c ->
  match c with
  | ByThrow e w' =>
      script C E w
      = (Exited 1,
         record [ ConsoleError [JStr (nl +:+ "❌ Error during processing:");
                                JStr (err_message e)];
                  ProcessExit 1 ] w')
      /\ exit_status (script C E w) = 1%Z
  | ByFailedState | ByCeiling =>
      fst (script C E w) = Returned
      /\ exit_status (script C E w) = 0%Z
      /\ calls DownloadResults (snd (script C E w)) = calls DownloadResults w
      /\ files (snd (script C E w)) = files w
  end.
Proof.
  intros Hkey Hfail.
  destruct Hfail as
    [ e w' H1
    | x w1 e w' H1 H2
    | x w1 source w2 e w' H1 H2 H3
    | x w1 source w2 u w3 e w' H1 H2 H3 H4
    | x w1 k wk e w' Hpre Hk Hwait Hcheck
    | x w1 k wk data w2 e w' Hpre Hk Hwait Hcheck Hstate Hdown
    | x w1 k data Hpre Hk Hp Hr Hs
    | x w1 Hpre Hp ].
  - apply thrown_step_exits; [done|].
    unfold workflow. by rewrite (bind_thrown _ _ _ _ _ H1).
  - apply thrown_step_exits; [done|].
    unfold workflow. by rewrite (bind_normal _ _ _ _ _ H1), (bind_thrown _ _ _ _ _ H2).
  - apply thrown_step_exits; [done|].
    unfold workflow.
    by rewrite (bind_normal _ _ _ _ _ H1), (bind_normal _ _ _ _ _ H2),
      (bind_thrown _ _ _ _ _ H3).
  - apply thrown_step_exits; [done|].
    unfold workflow.
    by rewrite (bind_normal _ _ _ _ _ H1), (bind_normal _ _ _ _ _ H2),
      (bind_normal _ _ _ _ _ H3), (bind_thrown _ _ _ _ _ H4).
  - apply thrown_step_exits; [done|].
    destruct (prelude_then C E w x w1 Hpre) as (-> & _).
    destruct (poll_waited C E k (maxAttempts C - k) 0 (JStr "") w1 wk Hwait) as [st' Hrun].
    replace (k + (maxAttempts C - k)) with (maxAttempts C) in Hrun by lia.
    destruct (maxAttempts C - k) as [|n] eqn:Hn; [lia|].
    cbn [poll] in Hrun. rewrite (bind_thrown _ _ _ _ _ Hcheck) in Hrun.
    unfold monitor. by rewrite (bind_thrown _ _ _ _ _ Hrun).
  - apply thrown_step_exits; [done|].
    destruct (prelude_then C E w x w1 Hpre) as (-> & _).
    destruct (poll_waited C E k (maxAttempts C - k) 0 (JStr "") w1 wk Hwait) as [st' Hrun].
    replace (k + (maxAttempts C - k)) with (maxAttempts C) in Hrun by lia.
    destruct (maxAttempts C - k) as [|n] eqn:Hn; [lia|].
    cbn [poll] in Hrun. rewrite (bind_normal _ _ _ _ _ Hcheck) in Hrun.
    unfold bind at 1 in Hrun. rewrite Hstate in Hrun.
    cbn [lift ret] in Hrun.
    change (strict_eq_str (JStr "Completed") "Completed") with true in Hrun.
    cbv iota in Hrun. unfold console_log in Hrun.
    rewrite (bind_normal _ _ _ _ _ (emit_record _ _)) in Hrun. unfold ret in Hrun.
    unfold monitor. rewrite (bind_normal _ _ _ _ _ Hrun).
    change (strict_eq_str (JStr "Completed") "Completed") with true. cbn [negb].
    unfold after_success. by rewrite (bind_thrown _ _ _ _ _ Hdown).
  - rewrite (script_with_key C E w Hkey).
    destruct (prelude_then C E w x w1 Hpre) as (Hw & Hcs & Hdl & _ & Hf).
    destruct (get_prop_other data _ _ "error_message" Hs) as [message Hm].
    rewrite <- Hcs in Hp, Hr.
    destruct (monitor_failed C E k w1 data message Hk Hp Hr Hs Hm)
      as (w2 & Hmon & _ & _ & Hdl2 & Hf2 & _).
    unfold main, try_catch, exit_status. rewrite Hw, Hmon. cbn. by rewrite Hdl2, Hf2.
  - rewrite (script_with_key C E w Hkey).
    destruct (prelude_then C E w x w1 Hpre) as (Hw & Hcs & Hdl & _ & Hf).
    rewrite <- Hcs in Hp.
    destruct (monitor_timeout C E w1 Hp) as (w2 & Hmon & _ & _ & Hdl2 & Hf2 & _).
    unfold main, try_catch, exit_status. rewrite Hw, Hmon. cbn. by rewrite Hdl2, Hf2.
Qed.

(** Two failed runs: the job fails on the first status check, and the
    process ends with status 0; the upload is refused, and the process
    ends with status 1 having entered neither startJob nor any later
    step. *)
Lemma failed_run_exit_status_witness :
  exit_status (script three_attempts (service [failed "bad audio"]) empty_disk) = 0%Z
  /\ exit_status (script three_attempts upload_refused empty_disk) = 1%Z
  /\ invocations (snd (script three_attempts upload_refused empty_disk))
     = [InitializeJob; GetAudioStream; UploadFile].
Proof.
  split.
  - refine (proj1 (proj2 (failed_run_exit_status three_attempts
                            (service [failed "bad audio"]) empty_disk ByFailedState _ _))).
    + reflexivity.
    + eapply job_failed with (k := 0).
      * vm_compute. reflexivity.
      * vm_compute. lia.
      * intros i Hi. lia.
      * reflexivity.
      * reflexivity.
  - pose proof (failed_run_exit_status three_attempts upload_refused empty_disk
                  (ByThrow (Error (JStr "too large") "Request failed with status code 413")
                           (snd (workflow three_attempts upload_refused empty_disk)))
                  eq_refl) as H.
    cbv beta iota in H. destruct H as [Hrun Hexit].
    + eapply upload_throws.
      * vm_compute. reflexivity.
      * vm_compute. reflexivity.
      * vm_compute. reflexivity.
    + split; [exact Hexit|]. rewrite Hrun. vm_compute. reflexivity.
Defined.

(** C1 as the specification states it, that every failed run ends with a
    status that is not 0, does not hold: a job the service reports as
    [Failed] is a failed run, and the status is 0. *)
Lemma failed_job_exits_with_zero :
  ~ (forall C E w c, has_key E = true -> failure C E w c ->
       exit_status (script C E w) <> 0%Z).
Proof.
  intros H.
  apply (H three_attempts (service [failed "bad audio"]) empty_disk ByFailedState).
  - reflexivity.
  - eapply job_failed with (k := 0).
    + vm_compute. reflexivity.
    + vm_compute. lia.
    + intros i Hi. lia.
    + reflexivity.
    + reflexivity.
  - vm_compute. reflexivity.
Qed.

(** C2, as the script has it: when none of the first [maxAttempts]
    status responses is terminal, the loop checks the status exactly
    [maxAttempts] times, then [main] logs that the job did not complete
    in time and returns; nothing is thrown and no download is entered. *)
Theorem ceiling_reached_returns C E w x w1 :
  prelude C E w = (Normal x, w1) ->
  (forall i, i < maxAttempts C ->
     pending (status_response E (calls CheckJobStatus w + i))) ->
  exists w2,
    workflow C E w = (Returned, w2)
    /\ calls CheckJobStatus w2 = calls CheckJobStatus w + maxAttempts C
    /\ head (trace w2) = Some (ConsoleLog [JStr "❌ Job did not complete within expected time"])
    /\ calls DownloadResults w2 = calls DownloadResults w.
Proof.
  intros Hpre Hp.
  destruct (prelude_then C E w x w1 Hpre) as (Hw & Hc & Hdl & _).
  rewrite <- Hc in Hp.
  destruct (monitor_timeout C E w1 Hp) as (w2 & Hmon & Hcalls & _ & Hdl2 & _ & Hlog & _).
  exists w2. rewrite Hw, Hmon, Hcalls, Hdl2, Hc, Hdl. done.
Qed.

Lemma ceiling_reached_returns_witness :
  exists w2,
    workflow three_attempts (service []) empty_disk = (Returned, w2)
    /\ calls CheckJobStatus w2 = 0 + 3
    /\ head (trace w2) = Some (ConsoleLog [JStr "❌ Job did not complete within expected time"])
    /\ calls DownloadResults w2 = 0.
Proof.
  eapply (ceiling_reached_returns three_attempts (service []) empty_disk).
  - vm_compute. reflexivity.
  - intros i Hi. exists (JStr "Running"). split; [|reflexivity].
    exists (JObj [("job_state", JStr "Running")]). split; [|reflexivity].
    destruct i; reflexivity.
Defined.

(** C2 as the specification states it does not hold: with three attempts
    and a job that stays [Running], three status checks are made and the
    run ends by a [return], not by an error thrown. *)
Lemma ceiling_throws_nothing :
  let r := workflow three_attempts
             (service [state "Running"; state "Running"; state "Running"]) empty_disk in
  calls CheckJobStatus (snd r) = 3
  /\ fst r = Returned
  /\ ~ (exists e, fst r = Thrown e).
Proof.
  vm_compute. split; [reflexivity|]. split; [reflexivity|]. intros [e He]. discriminate He.
Qed.

(** C3, as the script has it: when the first status response says
    [Failed], the loop makes that one status check, logs that the job
    failed and the message of the service, and [main] returns: nothing
    is thrown, no sleep and no further check happen, and no download is
    entered. *)
Theorem failed_on_first_check C E w x w1 data message :
  prelude C E w = (Normal x, w1) ->
  0 < maxAttempts C ->
  status_response E (calls CheckJobStatus w) = Resolved data ->
  get_prop data "job_state" = inr (JStr "Failed") ->
  get_prop data "error_message" = inr message ->
  exists w2,
    workflow C E w = (Returned, w2)
    /\ calls CheckJobStatus w2 = calls CheckJobStatus w + 1
    /\ naps w2 = naps w
    /\ calls DownloadResults w2 = calls DownloadResults w
    /\ files w2 = files w
    /\ exists t, trace w2 = ConsoleLog [JStr "Error:"; message]
                            :: ConsoleLog [JStr "❌ Job failed!"] :: t.
Proof.
  intros Hpre Hmax Hr Hs Hm.
  destruct (prelude_then C E w x w1 Hpre) as (Hw & Hc & Hdl & Hn & Hf).
  rewrite <- Hc, <- (Nat.add_0_r (calls CheckJobStatus w1)) in Hr.
  destruct (monitor_failed C E 0 w1 data message Hmax) as
    (w2 & Hmon & Hcalls & Hnaps & Hdl2 & Hf2 & Ht); try done.
  { intros i Hi. lia. }
  exists w2. rewrite Hw, Hmon, Hcalls, Hnaps, Hdl2, Hf2, Hc, Hdl, Hn, Hf.
  cbn [replicate]. by rewrite app_nil_r.
Qed.

Lemma failed_on_first_check_witness :
  exists w2,
    workflow three_attempts (service [failed "bad audio"]) empty_disk = (Returned, w2)
    /\ calls CheckJobStatus w2 = 0 + 1
    /\ naps w2 = []
    /\ calls DownloadResults w2 = 0
    /\ files w2 = ∅
    /\ exists t, trace w2 = ConsoleLog [JStr "Error:"; JStr "bad audio"]
                            :: ConsoleLog [JStr "❌ Job failed!"] :: t.
Proof.
  eapply (failed_on_first_check three_attempts (service [failed "bad audio"]) empty_disk).
  - vm_compute. reflexivity.
  - vm_compute. lia.
  - reflexivity.
  - reflexivity.
  - reflexivity.
Defined.

(** C3 as the specification states it does not hold: on a first response
    [Failed] with the message "bad audio" one status check is made and
    no download is entered, but the run ends by a [return]; no error is
    thrown, with that message or any other. *)
Lemma failed_state_throws_nothing :
  let r := workflow three_attempts (service [failed "bad audio"]) empty_disk in
  calls CheckJobStatus (snd r) = 1
  /\ calls DownloadResults (snd r) = 0
  /\ fst r = Returned
  /\ ~ (exists e, fst r = Thrown e).
Proof.
  vm_compute. do 3 (split; [reflexivity|]). intros [e He]. discriminate He.
Qed.

(** C4, as the script has it: every iteration that sees a state that
    is not terminal sleeps for the interval and only then comes back to
    the test of the attempt count, the last attempt included; [k] such
    iterations make [k] status checks and [k] sleeps of [interval], and
    when they were the [maxAttempts] allowed the loop ends straight
    after the last sleep. *)
Theorem pending_attempts_all_sleep C E k n a st w :
  (forall i, i < k -> pending (status_response E (calls CheckJobStatus w + i))) ->
  exists st' w',
    poll C E (k + n) a st w = poll C E n (k + a) st' w'
    /\ calls CheckJobStatus w' = calls CheckJobStatus w + k
    /\ naps w' = naps w ++ replicate k (interval C)
    /\ sleeps w' = sleeps w + k
    /\ (0 < k -> head (trace w') = Some (Sleep (interval C)))
    /\ (n = 0 -> poll C E (k + n) a st w = (Normal st', w')).
Proof.
  intros Hp.
  destruct (poll_skip C E k n a st w Hp)
    as (st' & w' & Hrun & Hcalls & Hnaps & _ & _ & _ & _ & _ & _ & _ & Hpos).
  exists st', w'. split; [done|]. split; [done|]. split; [done|].
  split; [by rewrite !sleeps_naps, Hnaps, length_app, length_replicate|].
  split; [by intros Hk; apply Hpos|].
  intros ->. by rewrite Hrun.
Qed.

Lemma pending_attempts_all_sleep_witness :
  exists st' w',
    poll three_attempts (service []) (3 + 0) 0 (JStr "") empty_disk
    = poll three_attempts (service []) 0 (3 + 0) st' w'
    /\ calls CheckJobStatus w' = calls CheckJobStatus empty_disk + 3
    /\ naps w' = naps empty_disk ++ replicate 3 (interval three_attempts)
    /\ sleeps w' = sleeps empty_disk + 3
    /\ (0 < 3 -> head (trace w') = Some (Sleep (interval three_attempts)))
    /\ (0 = 0 -> poll three_attempts (service []) (3 + 0) 0 (JStr "") empty_disk
                 = (Normal st', w')).
Proof.
  apply (pending_attempts_all_sleep three_attempts (service []) 3 0 0 (JStr "") empty_disk).
  intros i Hi. exists (JStr "Running"). split; [|reflexivity].
  exists (JObj [("job_state", JStr "Running")]). split; [|reflexivity].
  destruct i; reflexivity.
Defined.

(** C4 as the specification states it does not hold: with three attempts
    and a job that stays [Running] the run sleeps three times, not
    twice, and the last sleep comes just before the loop is left. *)
Lemma last_attempt_sleeps_too :
  let r := workflow three_attempts
             (service [state "Running"; state "Running"; state "Running"]) empty_disk in
  calls CheckJobStatus (snd r) = 3
  /\ naps (snd r) = [10000; 10000; 10000]%Z
  /\ sleeps (snd r) <> 3 - 1
  /\ trace (snd r) !! 1 = Some (Sleep 10000).
Proof.
  vm_compute. do 2 (split; [reflexivity|]). split; [lia | reflexivity].
Qed.

(** C5: on the status responses [Running], [Running], [Completed] the
    loop checks the status three times, sleeping after the first two,
    leaves on the [Completed], and [main] goes on to the download; the
    whole run has these three status checks and enters the download
    once. *)
Theorem running_running_completed C E w x w1 :
  prelude C E w = (Normal x, w1) ->
  3 <= maxAttempts C ->
  reports (status_response E (calls CheckJobStatus w)) (JStr "Running") ->
  reports (status_response E (calls CheckJobStatus w + 1)) (JStr "Running") ->
  reports (status_response E (calls CheckJobStatus w + 2)) (JStr "Completed") ->
  exists w2,
    poll C E (maxAttempts C) 0 (JStr "") w1 = (Normal (JStr "Completed"), w2)
    /\ workflow C E w = after_success C E w2
    /\ calls CheckJobStatus w2 = calls CheckJobStatus w + 3
    /\ naps w2 = naps w ++ [interval C; interval C]
    /\ head (trace w2) = Some (ConsoleLog [JStr "✅ Job completed successfully!"])
    /\ calls DownloadResults w2 = calls DownloadResults w
    /\ calls CheckJobStatus (snd (workflow C E w)) = calls CheckJobStatus w + 3
    /\ calls DownloadResults (snd (workflow C E w)) = calls DownloadResults w + 1.
Proof.
  intros Hpre Hmax H0 H1 (data & Hr & Hs).
  destruct (prelude_then C E w x w1 Hpre) as (Hw & Hc & Hdl & Hn & Hf).
  rewrite <- Hc in H0, H1, Hr.
  destruct (monitor_completed C E 2 w1 data) as
    (w2 & Hpoll & Hmon & Hcalls & Hnaps & Hdl2 & _ & _ & _ & Hlog); try done.
  { intros i Hi. assert (i = 0 \/ i = 1) as [-> | ->] by lia.
    - rewrite Nat.add_0_r. by exists (JStr "Running").
    - by exists (JStr "Running"). }
  exists w2. rewrite Hw, Hmon.
  destruct (after_success_calls C E w2) as [-> ->].
  rewrite Hcalls, Hnaps, Hdl2, Hc, Hdl, Hn. repeat split; (done || lia).
Qed.

Lemma running_running_completed_witness :
  exists w2,
    poll source_config (service [state "Running"; state "Running"; state "Completed"])
         60 0 (JStr "")
         (snd (prelude source_config
                 (service [state "Running"; state "Running"; state "Completed"]) empty_disk))
    = (Normal (JStr "Completed"), w2)
    /\ calls CheckJobStatus w2 = 3
    /\ naps w2 = [10000; 10000]%Z
    /\ calls CheckJobStatus
         (snd (workflow source_config
                 (service [state "Running"; state "Running"; state "Completed"]) empty_disk)) = 3
    /\ calls DownloadResults
         (snd (workflow source_config
                 (service [state "Running"; state "Running"; state "Completed"]) empty_disk)) = 1.
Proof.
  destruct (running_running_completed source_config
              (service [state "Running"; state "Running"; state "Completed"]) empty_disk
              (JObj [])
              (snd (prelude source_config
                      (service [state "Running"; state "Running"; state "Completed"])
                      empty_disk)))
    as (w2 & Hpoll & _ & Hc & Hn & _ & _ & Hc' & Hd').
  - vm_compute. reflexivity.
  - vm_compute. lia.
  - exists (JObj [("job_state", JStr "Running")]). split; reflexivity.
  - exists (JObj [("job_state", JStr "Running")]). split; reflexivity.
  - exists (JObj [("job_state", JStr "Completed")]). split; reflexivity.
  - exists w2. repeat split; assumption.
Defined.

End WorkflowClaims.

(** ** The download *)

Section Download.
Import Sarvam Scenario.

Variable C : config.
Variable E : env.

(** One artifact that downloads and writes without error. *)
Lemma download_one_finished w file name body :
  get_prop file "name" = inr (JStr name) ->
  file_response E (to_String (outputStoragePath w) +:+ "/" +:+ name) = Resolved body ->
  write_result E (DESTINATION_DIR C +:+ "/" +:+ name) = Finished ->
  download_one C E file w
  = (Normal tt,
     record (download_events C (outputStoragePath w) name)
       (World (jobId w) (inputStoragePath w) (outputStoragePath w)
              (<[DESTINATION_DIR C +:+ "/" +:+ name := body]> (files w)) (dirs w) (trace w))).
Proof.
  intros Hname Hfile Hwrite.
  unfold download_one, bind, get, lift, axios, bind, pipe_to_file, bind, console_log, emit.
  cbn. rewrite Hname. cbn. rewrite Hfile. cbn. rewrite Hwrite. cbn. reflexivity.
Qed.

(** C6: with the listing [[{name:"a.json"},{name:"b.txt"}]], and the two
    downloads and the two writes going well, [downloadResults] requests
    the listing, then a.json, writes it to the destination directory and
    waits for the end of the write, then does the same for b.txt; these
    are the only two downloads, and afterwards both files are on disk
    under the destination directory with the bytes the service sent. *)
Theorem downloads_in_listing_order w bytes_a bytes_b :
  mkdir_result E = None ->
  list_response E = Resolved listing ->
  file_response E (to_String (outputStoragePath w) +:+ "/a.json") = Resolved bytes_a ->
  file_response E (to_String (outputStoragePath w) +:+ "/b.txt") = Resolved bytes_b ->
  write_result E (DESTINATION_DIR C +:+ "/a.json") = Finished ->
  write_result E (DESTINATION_DIR C +:+ "/b.txt") = Finished ->
  exists w',
    downloadResults C E w = (Normal tt, w')
    /\ history w'
       = history w
         ++ [ Invoke DownloadResults;
              ConsoleLog [JStr (nl +:+ "📥 Downloading results...")];
              ExistsSync (DESTINATION_DIR C) ]
         ++ (if present w (DESTINATION_DIR C) then [] else [MkdirSync (DESTINATION_DIR C)])
         ++ [ Http GET (outputStoragePath w) ]
         ++ download_events C (outputStoragePath w) "a.json"
         ++ download_events C (outputStoragePath w) "b.txt"
         ++ [ ConsoleLog [JStr "All files downloaded successfully"] ]
    /\ files w'
       = <[DESTINATION_DIR C +:+ "/b.txt" := bytes_b]>
           (<[DESTINATION_DIR C +:+ "/a.json" := bytes_a]> (files w))
    /\ files w' !! (DESTINATION_DIR C +:+ "/a.json") = Some bytes_a
    /\ files w' !! (DESTINATION_DIR C +:+ "/b.txt") = Some bytes_b
    /\ present w' (DESTINATION_DIR C) = true.
Proof.
  intros Hmk Hlist Ha Hb Hwa Hwb.
  unfold downloadResults, try_catch, bind, console_log, emit, existsSync, bind, emit, get,
    mkdirSync, bind, emit, axios, bind, emit, lift.
  cbn. rewrite Hlist, Hmk. cbn.
  unfold present at 1. cbn [dirs files]. fold (present w (DESTINATION_DIR C)).
  assert (DESTINATION_DIR C +:+ "/b.txt" <> DESTINATION_DIR C +:+ "/a.json") as Hne.
  { intros Heq. by apply (inj (String.app _)) in Heq. }
  destruct (present w (DESTINATION_DIR C)) eqn:Hpres; cbn;
    unfold bind;
    (erewrite download_one_finished; [|reflexivity|exact Ha|exact Hwa]);
    (erewrite download_one_finished; [|reflexivity|exact Hb|exact Hwb]);
    cbn; eexists; (split; [reflexivity|]);
    (split; [unfold history; cbn; by rewrite <- !app_assoc|]);
    (split; [reflexivity|]); cbn;
    (split; [by rewrite lookup_insert_ne, lookup_insert_eq|]);
    (split; [by rewrite lookup_insert_eq|]).
  - unfold present in *. cbn.
    apply orb_true_iff in Hpres as [H|H]; apply orb_true_iff; [by left|right].
    apply bool_decide_eq_true. apply bool_decide_eq_true in H.
    rewrite !lookup_insert_is_Some'. by do 2 right.
  - unfold present. cbn. apply orb_true_intro. left. apply bool_decide_eq_true. set_solver.
Qed.



End Download.

Section DownloadScenario.
Import Sarvam Scenario.

Lemma downloads_in_listing_order_witness :
  exists w',
    downloadResults three_attempts (service [])
      (World (JStr "job-1") (JStr "https://storage.example/in")
             (JStr "https://storage.example/out") ∅ ∅ []) = (Normal tt, w')
    /\ files w' !! "./output/a.json" = Some a_json
    /\ files w' !! "./output/b.txt" = Some b_txt.
Proof.
  destruct (downloads_in_listing_order three_attempts (service [])
              (World (JStr "job-1") (JStr "https://storage.example/in")
                     (JStr "https://storage.example/out") ∅ ∅ []) a_json b_txt)
    as (w' & Hrun & _ & _ & Ha & Hb & _).
  - reflexivity.
  - reflexivity.
  - reflexivity.
  - reflexivity.
  - reflexivity.
  - reflexivity.
  - exists w'. split; [exact Hrun|]. split; [exact Ha | exact Hb].
Defined.

End DownloadScenario.

(** ** The audio source *)

Section AudioSource.
Import Sarvam Scenario.

Lemma split_nonempty sep s : split sep s <> [].
Proof.
  destruct s as [|c s]; cbn; [done|].
  destruct (Ascii.eqb c sep); [done|]. by destruct (split sep s).
Qed.

(** Splitting at a separator splits what is before it and what is after
    it. *)
Lemma split_app sep p q :
  split sep (p +:+ String sep q) = split sep p ++ split sep q.
Proof.
  induction p as [|c p IH].
  - change ("" +:+ String sep q) with (String sep q). cbn. by rewrite Ascii.eqb_refl.
  - change (String c p +:+ String sep q) with (String c (p +:+ String sep q)). cbn.
    destruct (Ascii.eqb c sep); [by rewrite IH|].
    rewrite IH. pose proof (split_nonempty sep p).
    by destruct (split sep p).
Qed.

Lemma last_split_app sep p q :
  last (split sep (p +:+ String sep q)) = last (split sep q).
Proof.
  rewrite split_app. pose proof (split_nonempty sep q) as Hq.
  destruct (split sep q) as [|x l] eqn:Heq; [done|].
  rewrite last_app. destruct (last (x :: l)) as [y|] eqn:Hl; [done|].
  by apply last_None in Hl.
Qed.

Lemma last_segment_app p q : last_segment (p +:+ String "/" q) = last_segment q.
Proof. unfold last_segment. by rewrite last_split_app. Qed.

(** The name is the last segment, unless that is empty. *)
Lemma file_name_last_segment source :
  file_name source
  = if String.eqb (last_segment source) "" then "audio.wav" else last_segment source.
Proof.
  unfold file_name, last_segment, pop.
  pose proof (split_nonempty "/" source) as Hs.
  destruct (last (split "/" source)) as [seg|] eqn:Hl.
  - cbn. unfold or_else. cbn. by destruct (String.eqb seg "").
  - by apply last_None in Hl.
Qed.

(** A piece of a split string splits into itself. *)
Lemma split_segment sep s : Forall (fun seg => split sep seg = [seg]) (split sep s).
Proof.
  induction s as [|c s IH]; cbn.
  - by repeat constructor.
  - destruct (Ascii.eqb c sep) eqn:Hc; [by constructor|].
    pose proof (split_nonempty sep s) as Hne.
    destruct (split sep s) as [|seg rest]; [done|].
    inversion IH as [|? ? Hseg Hrest]; subst. constructor; [|done].
    cbn. by rewrite Hc, Hseg.
Qed.

(** A string that splits into itself has no separator in it. *)
Lemma unsplit_no_separator sep s p q : split sep s = [s] -> s <> p +:+ String sep q.
Proof.
  intros Hs ->. rewrite split_app in Hs.
  pose proof (split_nonempty sep p). pose proof (split_nonempty sep q).
  apply (f_equal length) in Hs. rewrite length_app in Hs. cbn in Hs.
  destruct (split sep p), (split sep q); cbn in *; try done; lia.
Qed.

(** A string without the separator splits into itself. *)
Lemma split_without_separator sep s :
  (forall p q, s <> p +:+ String sep q) -> split sep s = [s].
Proof.
  induction s as [|c s IH]; intros Hfree; [done|]. cbn [split].
  destruct (Ascii.eqb_spec c sep) as [->|Hc].
  - by destruct (Hfree "" s).
  - rewrite IH; [done|]. intros p q ->. by destruct (Hfree (String c p) q).
Qed.

(** A string is its own last segment, having no [/], or ends in a [/]
    followed by its last segment. *)
Lemma last_segment_spec s :
  split "/" s = [s] \/ exists p, s = p +:+ String "/" (last_segment s).
Proof.
  unfold last_segment. induction s as [|c s IH]; [by left|]. cbn [split].
  pose proof (split_nonempty "/" s) as Hne.
  destruct (Ascii.eqb_spec c "/") as [->|Hc].
  - right. rewrite last_cons. destruct (last (split "/" s)) as [seg|] eqn:Hl;
      [|by apply last_None in Hl]. cbn.
    destruct IH as [Hs|[p Hp]].
    + rewrite Hs in Hl. injection Hl as <-. by exists "".
    + cbn in Hp. exists (String "/" p). by rewrite Hp at 1.
  - destruct IH as [Hs|[p Hp]].
    + left. by rewrite Hs.
    + right. destruct (split "/" s) as [|seg0 rest] eqn:Hsp; [done|].
      destruct rest as [|r rest].
      * exfalso. cbn in Hp. rewrite Hp, split_app in Hsp.
        pose proof (split_nonempty "/" p).
        pose proof (split_nonempty "/" seg0).
        apply (f_equal length) in Hsp. rewrite length_app in Hsp.
        destruct (split "/" p), (split "/" seg0); cbn in *; try done; lia.
      * rewrite last_cons_cons. exists (String c p). by rewrite Hp at 1.
Qed.

(** A URL that stops at the host has the host as its last segment. *)
Lemma file_name_of_host : file_name "https://media.example" = "media.example".
Proof. reflexivity. Qed.

Variable C : config.
Variable E : env.

Lemma getAudioStream_name w a w' :
  getAudioStream C E w = (Normal a, w') -> audio_name a = file_name (AUDIO_SOURCE C).
Proof.
  unfold getAudioStream, bind, emit, axios, bind, emit, existsSync, bind, emit, get, ret, throw.
  destruct (startsWith (AUDIO_SOURCE C) "http"); cbn.
  - destruct (source_response E); cbn; [by intros [= <- _] | done].
  - destruct (negb _); cbn; [done | by intros [= <- _]].
Qed.

(** C7, as the script has it: the name [getAudioStream] returns is the
    text after the last [/] of the source specifier, whatever that text
    is, and the whole specifier when it has no [/]; for a source that
    ends in [/clip.wav] it is [clip.wav]; it is the default [audio.wav]
    when that text is empty (the empty specifier, or one that ends in
    [/]), and only then, unless the text is itself [audio.wav]. *)
Theorem inferred_file_name w a w' :
  getAudioStream C E w = (Normal a, w') ->
  audio_name a
  = (if String.eqb (last_segment (AUDIO_SOURCE C)) "" then "audio.wav"
     else last_segment (AUDIO_SOURCE C))
  /\ (forall p, AUDIO_SOURCE C = p +:+ "/clip.wav" -> audio_name a = "clip.wav")
  /\ (AUDIO_SOURCE C = "" \/ (exists p, AUDIO_SOURCE C = p +:+ "/") ->
      audio_name a = "audio.wav")
  /\ (forall p seg,
        AUDIO_SOURCE C = p +:+ "/" +:+ seg ->
        seg <> "" -> (forall p' q', seg <> p' +:+ "/" +:+ q') ->
        audio_name a = seg)
  /\ (AUDIO_SOURCE C <> "" ->
      (forall p' q', AUDIO_SOURCE C <> p' +:+ "/" +:+ q') ->
      audio_name a = AUDIO_SOURCE C)
  /\ (audio_name a = "audio.wav" ->
      AUDIO_SOURCE C = "" \/ (exists p, AUDIO_SOURCE C = p +:+ "/")
      \/ AUDIO_SOURCE C = "audio.wav" \/ exists p, AUDIO_SOURCE C = p +:+ "/audio.wav").
Proof.
  intros Hrun. rewrite (getAudioStream_name w a w' Hrun), file_name_last_segment.
  split; [done|]. split; [|split; [|split; [|split]]].
  - intros p ->. by rewrite (last_segment_app p "clip.wav").
  - intros [-> | [p ->]]; [done|]. by rewrite (last_segment_app p "").
  - intros p seg Hsrc Hne Hfree. change ("/" +:+ seg) with (String "/" seg) in Hsrc.
    rewrite Hsrc, (last_segment_app p seg).
    unfold last_segment. rewrite (split_without_separator "/" seg Hfree). cbn.
    by destruct (String.eqb_spec seg "").
  - intros Hne Hfree. unfold last_segment.
    rewrite (split_without_separator "/" _ Hfree). cbn.
    by destruct (String.eqb_spec (AUDIO_SOURCE C) "").
  - intros Hname.
    assert (last_segment (AUDIO_SOURCE C) = ""
            \/ last_segment (AUDIO_SOURCE C) = "audio.wav") as Hlast.
    { destruct (String.eqb_spec (last_segment (AUDIO_SOURCE C)) ""); [by left|by right]. }
    destruct (last_segment_spec (AUDIO_SOURCE C)) as [Hwhole|[p Hp]].
    + assert (last_segment (AUDIO_SOURCE C) = AUDIO_SOURCE C) as Heq
        by (unfold last_segment; by rewrite Hwhole).
      rewrite Heq in Hlast. destruct Hlast as [?|?]; [by left|by right; right; left].
    + destruct Hlast as [Hl|Hl]; rewrite Hl in Hp.
      * right. left. by exists p.
      * right. right. right. by exists p.
Qed.

(** C7 as the specification states it does not hold: the URI
    [https://media.example] has no path segment, only a host after
    [https://], and the name inferred for it is the host, not the
    default; and where the path of a URI is followed by a query with a
    [/] in it, the name is the tail of the query, not the last segment
    of the path. *)
Lemma host_is_taken_for_a_file_name :
  AUDIO_SOURCE host_only = "https://" +:+ "media.example"
  /\ (forall p q, "media.example" <> p +:+ "/" +:+ q)
  /\ fst (getAudioStream host_only (service []) empty_disk)
     = Normal (Audio (ResponseBody [Byte.x52; Byte.x49; Byte.x46; Byte.x46]) "media.example")
  /\ "media.example" <> "audio.wav"
  /\ file_name "https://media.example/calls/clip.wav?sig=x/y" = "y".
Proof.
  split; [reflexivity|]. split; [|split; [reflexivity|split; [discriminate|reflexivity]]].
  intros p q. by apply unsplit_no_separator.
Qed.

(** [s.startsWith(p)] holds exactly when [s] is [p] followed by
    something. *)
Lemma startsWith_spec s p : startsWith s p = true <-> exists rest, s = p +:+ rest.
Proof.
  unfold startsWith. revert s. induction p as [|a p IH]; intros s.
  - split; [intros _; by exists s|]. by destruct s.
  - destruct s as [|b s]; cbn.
    + split; [done|]. intros [rest H]. discriminate H.
    + destruct (ascii_dec a b) as [->|Hab].
      * rewrite IH. split; intros [rest H]; exists rest.
        -- by rewrite H.
        -- by injection H.
      * split; [done|]. intros [rest H]. injection H as <- _. done.
Qed.

(** The three ways [getAudioStream] ends. *)
Lemma getAudioStream_cases w :
  getAudioStream C E w
  = (if startsWith (AUDIO_SOURCE C) "http" then
       (match source_response E with
        | Resolved body => Normal (Audio (ResponseBody body) (file_name (AUDIO_SOURCE C)))
        | Rejected e => Thrown e
        end,
        record [Invoke GetAudioStream; Http GET (JStr (AUDIO_SOURCE C))] w)
     else if present w (AUDIO_SOURCE C) then
       (Normal (Audio (FileStream (AUDIO_SOURCE C)) (file_name (AUDIO_SOURCE C))),
        record [ Invoke GetAudioStream; ExistsSync (AUDIO_SOURCE C);
                 CreateReadStream (AUDIO_SOURCE C) ] w)
     else
       (Thrown (mkError ("File not found: " +:+ AUDIO_SOURCE C)),
        record [Invoke GetAudioStream; ExistsSync (AUDIO_SOURCE C)] w)).
Proof.
  unfold getAudioStream, bind, emit, axios, bind, emit, existsSync, bind, emit, get, ret, throw.
  destruct (startsWith (AUDIO_SOURCE C) "http"); cbn.
  - by destruct (source_response E).
  - unfold present; cbn. by destruct (_ || _).
Qed.

(** C10: a specifier that is [http] followed by anything is fetched
    over HTTP, and no other is: any other specifier is looked up on the
    disk, and then the call throws [File not found] exactly when nothing
    is at that path, and returns a read stream on the path otherwise. *)
Theorem source_classification w :
  ((exists rest, AUDIO_SOURCE C = "http" +:+ rest) ->
     getAudioStream C E w
     = (match source_response E with
        | Resolved body => Normal (Audio (ResponseBody body) (file_name (AUDIO_SOURCE C)))
        | Rejected e => Thrown e
        end,
        record [Invoke GetAudioStream; Http GET (JStr (AUDIO_SOURCE C))] w))
  /\ ((forall rest, AUDIO_SOURCE C <> "http" +:+ rest) ->
        (present w (AUDIO_SOURCE C) = true ->
           getAudioStream C E w
           = (Normal (Audio (FileStream (AUDIO_SOURCE C)) (file_name (AUDIO_SOURCE C))),
              record [ Invoke GetAudioStream; ExistsSync (AUDIO_SOURCE C);
                       CreateReadStream (AUDIO_SOURCE C) ] w))
        /\ (present w (AUDIO_SOURCE C) = false ->
              getAudioStream C E w
              = (Thrown (mkError ("File not found: " +:+ AUDIO_SOURCE C)),
                 record [Invoke GetAudioStream; ExistsSync (AUDIO_SOURCE C)] w))
        /\ (fst (getAudioStream C E w)
            = Thrown (mkError ("File not found: " +:+ AUDIO_SOURCE C))
            <-> present w (AUDIO_SOURCE C) = false))
  /\ (head (trace (snd (getAudioStream C E w))) = Some (Http GET (JStr (AUDIO_SOURCE C)))
      <-> exists rest, AUDIO_SOURCE C = "http" +:+ rest).
Proof.
  rewrite getAudioStream_cases.
  pose proof (startsWith_spec (AUDIO_SOURCE C) "http") as Hspec.
  destruct (startsWith (AUDIO_SOURCE C) "http").
  - split; [done|]. split.
    + intros Hno. destruct (proj1 Hspec eq_refl) as [rest Hrest]. by destruct (Hno rest).
    + split; [intros _; by apply Hspec|done].
  - split; [intros Hyes; by apply Hspec in Hyes|]. split.
    + intros _. destruct (present w (AUDIO_SOURCE C)); cbn; repeat split; done.
    + split; [|intros Hyes; by apply Hspec in Hyes].
      by destruct (present w (AUDIO_SOURCE C)).
Qed.

End AudioSource.

Section AudioSourceScenario.
Import Sarvam Scenario.

Lemma inferred_file_name_witness :
  audio_name (Audio (ResponseBody [Byte.x52; Byte.x49; Byte.x46; Byte.x46]) "clip.wav")
  = "clip.wav".
Proof.
  refine (proj1 (proj2 (inferred_file_name three_attempts (service []) empty_disk
                          (Audio (ResponseBody [Byte.x52; Byte.x49; Byte.x46; Byte.x46]) "clip.wav")
                          (record [Invoke GetAudioStream;
                                   Http GET (JStr "https://media.example/calls/clip.wav")]
                                  empty_disk) _))
                "https://media.example/calls" _).
  - reflexivity.
  - reflexivity.
Defined.

(** The three branches: a URL, a local file that is there, a local
    file that is not. *)
Lemma source_classification_witness :
  getAudioStream three_attempts (service []) empty_disk
  = (Normal (Audio (ResponseBody [Byte.x52; Byte.x49; Byte.x46; Byte.x46]) "clip.wav"),
     record [Invoke GetAudioStream; Http GET (JStr "https://media.example/calls/clip.wav")]
            empty_disk)
  /\ getAudioStream local_source (service []) disk_with_clip
     = (Normal (Audio (FileStream "./calls/clip.wav") "clip.wav"),
        record [ Invoke GetAudioStream; ExistsSync "./calls/clip.wav";
                 CreateReadStream "./calls/clip.wav" ] disk_with_clip)
  /\ getAudioStream local_source (service []) empty_disk
     = (Thrown (mkError "File not found: ./calls/clip.wav"),
        record [Invoke GetAudioStream; ExistsSync "./calls/clip.wav"] empty_disk).
Proof.
  assert (forall rest, AUDIO_SOURCE local_source <> "http" +:+ rest) as Hlocal.
  { intros rest H. vm_compute in H. discriminate H. }
  split; [|split].
  - apply (proj1 (source_classification three_attempts (service []) empty_disk)).
    exists "s://media.example/calls/clip.wav". reflexivity.
  - apply (proj1 (proj1 (proj2 (source_classification local_source (service [])
                                  disk_with_clip)) Hlocal)).
    vm_compute. reflexivity.
  - apply (proj1 (proj2 (proj1 (proj2 (source_classification local_source (service [])
                                         empty_disk)) Hlocal))).
    vm_compute. reflexivity.
Defined.

End AudioSourceScenario.

(** ** Initialization *)

Section Initialization.
Import Sarvam Scenario.

Variable C : config.
Variable E : env.

(** When the request is rejected, the error is logged and thrown on. *)
Lemma initializeJob_rejected w e :
  init_response E = Rejected e ->
  initializeJob C E w
  = (Thrown e,
     record [ Invoke InitializeJob;
              ConsoleLog [JStr (nl +:+ "🚀 Initializing job...")];
              Http POST (JStr (BASE_URL C +:+ "job/init"));
              ConsoleError [JStr "Error initializing job:"; diagnostic e] ] w).
Proof.
  intros H.
  unfold initializeJob, bind, emit, console_log, emit, try_catch, axios, bind, emit.
  cbn. rewrite H. reflexivity.
Qed.

(** C9: when [initializeJob] fails, whatever the reason, the three
    fields of the client are what they were before the call; on a new
    client they are still [null]. *)
Theorem failed_initialization_keeps_state w e w' :
  initializeJob C E w = (Thrown e, w') ->
  jobId w' = jobId w
  /\ inputStoragePath w' = inputStoragePath w
  /\ outputStoragePath w' = outputStoragePath w.
Proof.
  unfold initializeJob, bind, emit, console_log, emit, try_catch, axios, bind, emit,
    lift, set_jobId, set_inputStoragePath, set_outputStoragePath, log_and_rethrow,
    bind, console_error, emit, throw, ret.
  cbn. destruct (init_response E) as [data|e0]; cbn.
  - destruct data; cbn; intros [= <- <-]; done.
  - intros [= <- <-]. done.
Qed.

End Initialization.

Section InitializationScenario.
Import Sarvam Scenario.

Lemma failed_initialization_keeps_state_witness :
  let w' := snd (initializeJob three_attempts service_down empty_disk) in
  jobId w' = JNull /\ inputStoragePath w' = JNull /\ outputStoragePath w' = JNull.
Proof.
  refine (failed_initialization_keeps_state three_attempts service_down empty_disk
            (Error (JObj [("message", JStr "forbidden")]) "Request failed with status code 403")
            (snd (initializeJob three_attempts service_down empty_disk)) _).
  reflexivity.
Defined.

End InitializationScenario.

(** ** The transcript of main.js *)

Section Transcript.
Import Deepgram.

Lemma padStart_long width c s : width <= String.length s -> padStart width c s = s.
Proof.
  intros H. unfold padStart. by replace (width - String.length s) with 0 by lia.
Qed.

(** Below 100 the padded decimal is the two digits. *)
Lemma padStart_two_digits n :
  (0 <= n < 100)%Z -> padStart 2 "0" (toString n) = two_digits n.
Proof.
  intros Hn.
  assert (forallb (fun k => String.eqb (padStart 2 "0" (toString k)) (two_digits k))
            (seqZ 0 100) = true) as Hall by (vm_compute; reflexivity).
  rewrite forallb_forall in Hall. apply String.eqb_eq, Hall.
  apply list_elem_of_In, elem_of_seqZ. lia.
Qed.

Lemma pretty_N_go_length x : forall s,
  String.length s <= String.length (pretty_N_go x s).
Proof.
  induction (N.lt_wf_0 x) as [x _ IH]; intros s.
  destruct (decide (x = 0)%N) as [->|Hx]; [by rewrite pretty_N_go_0|].
  rewrite pretty_N_go_step by lia.
  etrans; [|apply IH; apply N.div_lt; lia]. cbn. lia.
Qed.

(** From 10 on the decimal has two digits or more. *)
Lemma toString_length n : (10 <= n)%Z -> 2 <= String.length (toString n).
Proof.
  intros Hn. destruct n as [|q|q]; try lia.
  unfold toString, pretty, pretty_Z, pretty, pretty_positive, pretty, pretty_N.
  destruct (decide (N.pos q = 0)%N); [done|].
  rewrite pretty_N_go_step by lia.
  rewrite pretty_N_go_step by (apply N.div_str_pos; lia).
  etrans; [|apply pretty_N_go_length]. cbn. lia.
Qed.

Lemma speaker_label_tag n : (0 <= n)%Z -> speaker_label n = speaker_tag n.
Proof.
  intros Hn. unfold speaker_label, speaker_tag.
  destruct (Z.ltb_spec n 100).
  - by rewrite padStart_two_digits by lia.
  - by rewrite padStart_long by (apply toString_length; lia).
Qed.

Lemma Math_round_nonneg t : (0 <= t)%Q -> (0 <= Math_round t)%Z.
Proof.
  intros Ht. unfold Math_round.
  change 0%Z with (Qfloor 0). apply Qfloor_resp_le.
  apply Qle_trans with t; [done|].
  rewrite <- (Qplus_0_r t) at 1. by apply Qplus_le_r.
Qed.

(** The rounded value is within half a second, a tie going up. *)
Lemma Math_round_nearest t :
  (inject_Z (Math_round t) - (1 # 2) <= t)%Q /\ (t < inject_Z (Math_round t) + (1 # 2))%Q.
Proof.
  unfold Math_round. pose proof (Qfloor_le (t + (1 # 2))) as Hle.
  pose proof (Qlt_floor (t + (1 # 2))) as Hlt.
  rewrite inject_Z_plus in Hlt.
  split.
  - apply (Qplus_le_l _ _ (1 # 2)). by ring_simplify.
  - apply (Qplus_lt_l _ _ (1 # 2)).
    eapply Qlt_le_trans; [exact Hlt|]. apply Qle_lteq; right. ring.
Qed.

Lemma fmt_clock t : (0 <= t)%Q -> fmt t = clock (Math_round t).
Proof.
  intros Ht. pose proof (Math_round_nonneg t Ht) as Hs.
  unfold fmt, clock. rewrite !Z.rem_mod_nonneg by lia.
  rewrite !padStart_two_digits; [done| |].
  - pose proof (Z.mod_pos_bound (Math_round t) 60). lia.
  - pose proof (Z.mod_pos_bound (Math_round t) 3600).
    split; [apply Z.div_pos; lia|]. apply Z.div_lt_upper_bound; lia.
Qed.

(** C8: for utterances with times and speaker index that are not
    negative, each line of the raw transcript is
    [[H:MM:SS -> H:MM:SS] SPEAKERnn: text], with the times rounded to
    the nearest second, minutes and seconds on two digits and below 60,
    and the speaker index on two digits; there is one
    [{start, end, text, speaker}] record per utterance, in the same
    order and with the same fields; and the language is the code of the
    service when there is one, ["hi"] otherwise. *)
Theorem transcript_format r :
  Forall well_formed (utterances r) ->
  raw_transcript (report r)
  = join nl (map (fun u => "[" +:+ clock (Math_round (u_start u)) +:+ " -> "
                           +:+ clock (Math_round (u_end u)) +:+ "] "
                           +:+ speaker_tag (u_speaker u) +:+ ": " +:+ u_transcript u)
                 (utterances r))
  /\ transcript (report r)
     = map (fun u => {| seg_start := clock (Math_round (u_start u));
                        seg_end := clock (Math_round (u_end u));
                        seg_text := u_transcript u;
                        seg_speaker := speaker_tag (u_speaker u) |})
           (utterances r)
  /\ length (transcript (report r)) = length (utterances r)
  /\ Forall (fun u =>
       (0 <= Math_round (u_start u) mod 3600 / 60 < 60)%Z
       /\ (0 <= Math_round (u_start u) mod 60 < 60)%Z
       /\ (0 <= Math_round (u_end u) mod 3600 / 60 < 60)%Z
       /\ (0 <= Math_round (u_end u) mod 60 < 60)%Z
       /\ (inject_Z (Math_round (u_start u)) - (1 # 2) <= u_start u
           < inject_Z (Math_round (u_start u)) + (1 # 2))%Q
       /\ (inject_Z (Math_round (u_end u)) - (1 # 2) <= u_end u
           < inject_Z (Math_round (u_end u)) + (1 # 2))%Q)
     (utterances r)
  /\ language (report r)
     = match opt_prop (opt_prop (metadata r) "language") "code" with
       | JUndefined | JNull => JStr "hi"
       | code => code
       end.
Proof.
  intros Hwf. unfold report; cbn [raw_transcript transcript language].
  split; [|split; [|split; [|split]]].
  - f_equal. apply map_ext_Forall. eapply Forall_impl; [exact Hwf|].
    intros u (Hs & He & Hk). unfold line.
    by rewrite !fmt_clock, speaker_label_tag.
  - apply map_ext_Forall. eapply Forall_impl; [exact Hwf|].
    intros u (Hs & He & Hk). unfold to_segment.
    by rewrite !fmt_clock, speaker_label_tag.
  - by rewrite length_map.
  - apply Forall_forall. intros u _.
    pose proof (Z.mod_pos_bound (Math_round (u_start u)) 60).
    pose proof (Z.mod_pos_bound (Math_round (u_start u)) 3600).
    pose proof (Z.mod_pos_bound (Math_round (u_end u)) 60).
    pose proof (Z.mod_pos_bound (Math_round (u_end u)) 3600).
    pose proof (Math_round_nearest (u_start u)).
    pose proof (Math_round_nearest (u_end u)).
    repeat split; try tauto; try lia;
      first [apply Z.div_pos; lia | apply Z.div_lt_upper_bound; lia].
  - unfold nullish_else. by destruct (opt_prop _ "code").
Qed.

End Transcript.

Section TranscriptScenario.
Import Deepgram Scenario.

Lemma transcript_format_witness :
  raw_transcript (report sample)
  = "[0:00:00 -> 1:01:02] SPEAKER00: vanakkam" +:+ nl
    +:+ "[1:01:02 -> 10:02:05] SPEAKER01: nandri"
  /\ language (report sample) = JStr "ta".
Proof.
  assert (Forall well_formed (utterances sample)) as Hwf.
  { repeat constructor; cbn; unfold Qle; cbn; lia. }
  destruct (transcript_format sample Hwf) as (Hraw & _ & _ & _ & Hlang).
  split.
  - rewrite Hraw. vm_compute. reflexivity.
  - rewrite Hlang. reflexivity.
Defined.

End TranscriptScenario.

(** * Further properties of sarvam.js *)

(** ** The order of the steps *)

Section Order.
Import Sarvam.

Lemma invocations_trace_only : trace_only invocations.
Proof. intros w w' H. unfold invocations, history. by rewrite H. Qed.

Lemma invocations_record evs w :
  invocations (record evs w)
  = invocations w ++ omap (fun e => match e with Invoke op => Some op | _ => None end) evs.
Proof. unfold invocations. by rewrite history_record, omap_app. Qed.

Lemma invocations_deaf e :
  (forall op, e <> Invoke op) -> deaf_to invocations e.
Proof.
  intros He w. rewrite invocations_record. destruct e; cbn; try by rewrite app_nil_r.
  by destruct (He op).
Qed.

Lemma calls_tally op w : calls op w = tally op (invocations w).
Proof.
  unfold calls, count_events, invocations, history.
  rewrite <- (count_if_rev _ (trace w)).
  induction (rev (trace w)) as [|e l IH]; cbn; [done|].
  destruct e; cbn; by rewrite IH.
Qed.

Lemma tally_app op l1 l2 : tally op (l1 ++ l2) = tally op l1 + tally op l2.
Proof. induction l1 as [|o l1 IH]; cbn; [done|]. rewrite IH. lia. Qed.

Lemma tally_replicate op k o :
  tally op (replicate k o) = if operation_eqb op o then k else 0.
Proof.
  induction k as [|k IH]; cbn; [by destruct (operation_eqb op o)|].
  rewrite IH. by destruct (operation_eqb op o).
Qed.

End Order.

(** Solves [keeps invocations m] for a method body [m], which enters no
    other method. *)
Ltac quiet :=
  frame;
  first [ apply invocations_trace_only
        | apply invocations_deaf; intros ?; discriminate ].

(** Rewrites [invocations] across a piece of script that enters no
    method. *)
Ltac skip_quiet :=
  match goal with
  | |- context [Sarvam.invocations (snd (?m ?w'))] =>
      let H := fresh "Hq" in
      assert (Sarvam.keeps Sarvam.invocations m) as H
        by (unfold Sarvam.console_log, Sarvam.console_error, Sarvam.sleep; quiet);
      rewrite (H w'); clear H
  end.

Section OrderOfSteps.
Import Sarvam.

Variable C : config.
Variable E : env.

(** A method is entered once, and what it does inside enters no other. *)
Lemma entered_once {A} op (body : M A) w :
  keeps invocations body ->
  invocations (snd ((emit (Invoke op) >> body) w)) = invocations w ++ [op].
Proof.
  intros H. unfold bind at 1. rewrite emit_record.
  by rewrite H, invocations_record.
Qed.

Lemma initializeJob_entered w :
  invocations (snd (initializeJob C E w)) = invocations w ++ [InitializeJob].
Proof.
  apply entered_once. unfold log_and_rethrow, console_log, console_error. quiet.
Qed.

Lemma getAudioStream_entered w :
  invocations (snd (getAudioStream C E w)) = invocations w ++ [GetAudioStream].
Proof. apply entered_once. quiet. Qed.

Lemma uploadFile_entered s n w :
  invocations (snd (uploadFile E s n w)) = invocations w ++ [UploadFile].
Proof.
  apply entered_once. unfold log_and_rethrow, console_log, console_error. quiet.
Qed.

Lemma startJob_entered w :
  invocations (snd (startJob C E w)) = invocations w ++ [StartJob].
Proof.
  apply entered_once. unfold log_and_rethrow, console_log, console_error. quiet.
Qed.

Lemma checkJobStatus_entered w :
  invocations (snd (checkJobStatus C E w)) = invocations w ++ [CheckJobStatus].
Proof.
  unfold checkJobStatus. unfold bind at 1, get at 1.
  apply entered_once. unfold log_and_rethrow, console_log, console_error. quiet.
Qed.

Lemma download_each_quiet listing : keeps invocations (download_each C E listing).
Proof.
  induction listing as [|file rest IH]; cbn [download_each]; [apply keeps_ret|].
  apply keeps_bind; [|by intros _].
  unfold download_one, console_log.
  frame; first [ apply pipe_to_file_keeps | idtac ];
    first [ apply invocations_trace_only | apply invocations_deaf; intros ?; discriminate ].
Qed.

Lemma downloadResults_entered w :
  invocations (snd (downloadResults C E w)) = invocations w ++ [DownloadResults].
Proof.
  apply entered_once. unfold log_and_rethrow, console_log, console_error.
  frame;
    first [ apply download_each_quiet | apply invocations_trace_only
          | apply invocations_deaf; intros ?; discriminate ].
Qed.

(** The loop enters [checkJobStatus] and nothing else, at most once per
    attempt left. *)
Lemma poll_entered n : forall a st w,
  exists k, k <= n
    /\ invocations (snd (poll C E n a st w)) = invocations w ++ replicate k CheckJobStatus.
Proof.
  induction n as [|n IH]; intros a st w.
  { exists 0. split; [done|]. cbn. by rewrite app_nil_r. }
  cbn [poll]. unfold bind at 1.
  pose proof (checkJobStatus_entered w) as Hc.
  destruct (checkJobStatus C E w) as [[data| |e|c] w1]; cbn [snd] in Hc;
    try (exists 1; split; [lia|]; cbn [snd]; by rewrite Hc).
  unfold bind at 1.
  destruct (get_prop data "job_state") as [err|state]; cbn [lift];
    [exists 1; split; [lia|]; unfold throw; cbn [snd]; by rewrite Hc|].
  unfold ret at 1.
  destruct (strict_eq_str state "Completed").
  { exists 1. split; [lia|]. skip_quiet. by rewrite Hc. }
  destruct (strict_eq_str state "Failed").
  { exists 1. split; [lia|]. skip_quiet. by rewrite Hc. }
  unfold console_log, sleep. rewrite !bind_normal with (1 := emit_record _ _).
  rewrite record_record.
  match goal with |- context [poll C E n ?a' state ?w'] =>
    destruct (IH a' state w') as (k & Hk & Hi) end.
  exists (S k). split; [lia|].
  rewrite Hi, invocations_record, Hc. cbn. by rewrite app_nil_r, <- app_assoc.
Qed.

(** The methods [main] enters, in order; the first is [initializeJob]. *)
Lemma main_invocations w :
  exists k entered,
    k <= maxAttempts C
    /\ invocations (snd (main C E w)) = invocations w ++ entered
    /\ entered `prefix_of` itinerary k
    /\ exists rest, entered = InitializeJob :: rest.
Proof.
  assert (exists k entered, k <= maxAttempts C
            /\ invocations (snd (workflow C E w)) = invocations w ++ entered
            /\ entered `prefix_of` itinerary k
            /\ exists rest, entered = InitializeJob :: rest) as (k & entered & Hk & Hw & Hp & Hf).
  { unfold workflow. unfold bind at 1.
    pose proof (initializeJob_entered w) as H1.
    destruct (initializeJob C E w) as [[x1| |e|c] w1]; cbn [snd] in H1;
      try (exists 0, [InitializeJob]; split; [lia|]; split; [cbn [snd]; by rewrite H1|];
           split; by eexists).
    unfold bind at 1.
    pose proof (getAudioStream_entered w1) as H2. rewrite H1 in H2.
    destruct (getAudioStream C E w1) as [[x2| |e|c] w2]; cbn [snd] in H2;
      try (exists 0, [InitializeJob; GetAudioStream]; split; [lia|];
           split; [cbn [snd]; by rewrite H2, <- app_assoc|]; split; by eexists).
    unfold bind at 1.
    pose proof (uploadFile_entered (audio_stream x2) (audio_name x2) w2) as H3.
    rewrite H2 in H3.
    destruct (uploadFile E _ _ w2) as [[x3| |e|c] w3]; cbn [snd] in H3;
      try (exists 0, [InitializeJob; GetAudioStream; UploadFile]; split; [lia|];
           split; [cbn [snd]; by rewrite H3, <- !app_assoc|]; split; by eexists).
    unfold bind at 1.
    pose proof (startJob_entered w3) as H4. rewrite H3 in H4.
    destruct (startJob C E w3) as [[x4| |e|c] w4]; cbn [snd] in H4;
      try (exists 0, [InitializeJob; GetAudioStream; UploadFile; StartJob]; split; [lia|];
           split; [cbn [snd]; by rewrite H4, <- !app_assoc|]; split; by eexists).
    unfold bind at 1.
    destruct (poll_entered (maxAttempts C) 0 (JStr "") w4) as (k & Hk & H5).
    rewrite H4 in H5.
    destruct (poll C E (maxAttempts C) 0 (JStr "") w4) as [[st| |e|c] w5]; cbn [snd] in H5;
      try (exists k, ([InitializeJob; GetAudioStream; UploadFile; StartJob]
                      ++ replicate k CheckJobStatus); split; [lia|];
           split; [cbn [snd]; by rewrite H5, <- !app_assoc|]; split; by eexists).
    destruct (negb (strict_eq_str st "Completed")).
    - exists k, ([InitializeJob; GetAudioStream; UploadFile; StartJob]
                 ++ replicate k CheckJobStatus). split; [lia|].
      split; [|split; by eexists].
      skip_quiet. by rewrite H5, <- !app_assoc.
    - exists k, (itinerary k). split; [lia|]. split; [|split; [done|by eexists]].
      unfold bind at 1.
      pose proof (downloadResults_entered w5) as H6. rewrite H5 in H6.
      destruct (downloadResults C E w5) as [[x6| |e|c] w6]; cbn [snd] in H6;
        try (cbn [snd]; rewrite H6; unfold itinerary; by rewrite <- !app_assoc).
      skip_quiet. rewrite H6. unfold itinerary. by rewrite <- !app_assoc. }
  exists k, entered. split; [done|]. split; [|done].
  unfold main, try_catch.
  destruct (workflow C E w) as [[x| |e|c] w'] eqn:Hrun; cbn [snd] in *; try done.
  by skip_quiet.
Qed.

(** The methods a run enters, in order. *)
Lemma script_invocations w :
  exists k entered,
    k <= maxAttempts C
    /\ invocations (snd (script C E w)) = invocations w ++ entered
    /\ entered `prefix_of` itinerary k.
Proof.
  unfold script.
  destruct (SARVAM_API_KEY E) as [[|c s]|];
    [|destruct (main_invocations w) as (k & entered & Hk & Hi & Hp & _);
      by exists k, entered|];
    (exists 0, []; split; [lia|]; split; [|by eexists]; skip_quiet; by rewrite app_nil_r).
Qed.

(** X1. In every run the client methods are entered in the order
    initializeJob, getAudioStream, uploadFile, startJob, then
    checkJobStatus at most [maxAttempts] times, then downloadResults; a
    run that stops early has entered a beginning of that sequence, one
    that has [initializeJob] in it; and a run without API key enters
    none. *)
Theorem steps_in_order w :
  exists k entered,
    k <= maxAttempts C
    /\ invocations (snd (script C E w)) = invocations w ++ entered
    /\ entered `prefix_of` itinerary k
    /\ (has_key E = true -> exists rest, entered = InitializeJob :: rest)
    /\ (has_key E = false -> entered = []).
Proof.
  destruct (has_key E) eqn:Hkey.
  - destruct (main_invocations w) as (k & entered & Hk & Hi & Hp & Hf).
    exists k, entered. rewrite (script_with_key C E w Hkey). by repeat split.
  - exists 0, []. rewrite (script_without_key C E w Hkey).
    split; [lia|]. split; [cbn [snd]; by rewrite invocations_record|].
    split; [by eexists|]. by split.
Qed.

(** X2. Whatever the service answers, a run makes at most [maxAttempts]
    status checks, and enters each of the other methods at most once. *)
Theorem operations_bounded w op :
  calls op (snd (script C E w))
  <= calls op w + (if operation_eqb op CheckJobStatus then maxAttempts C else 1).
Proof.
  destruct (script_invocations w) as (k & entered & Hk & Hi & [rest Hp]).
  rewrite !calls_tally, Hi, tally_app.
  apply Nat.add_le_mono_l.
  assert (tally op entered <= tally op (itinerary k)) as Hle.
  { rewrite Hp, tally_app. lia. }
  etrans; [exact Hle|].
  unfold itinerary. rewrite !tally_app, tally_replicate.
  destruct op; cbn; lia.
Qed.

End OrderOfSteps.

(** ** What the status checks decide *)

Section StatusChecks.
Import Sarvam Scenario.

Variable C : config.
Variable E : env.

(** The three ways a status check ends. *)
Lemma checkJobStatus_cases w :
  checkJobStatus C E w
  = match status_response E (calls CheckJobStatus w) with
    | Rejected e =>
        (Thrown e,
         record [ Invoke CheckJobStatus;
                  ConsoleLog [JStr (nl +:+ "🔍 Checking job status...")];
                  Http GET (JStr (BASE_URL C +:+ "job/" +:+ to_String (jobId w) +:+ "/status"));
                  ConsoleError [JStr "Error checking job status:"; diagnostic e] ] w)
    | Resolved data =>
        match get_prop data "job_state" with
        | inr state => (Normal data, record (check_events C (jobId w) state) w)
        | inl e =>
            (Thrown e,
             record [ Invoke CheckJobStatus;
                      ConsoleLog [JStr (nl +:+ "🔍 Checking job status...")];
                      Http GET (JStr (BASE_URL C +:+ "job/" +:+ to_String (jobId w) +:+ "/status"));
                      ConsoleError [JStr "Error checking job status:"; diagnostic e] ] w)
        end
    end.
Proof.
  unfold checkJobStatus, bind, get, try_catch, axios, bind, emit, lift, console_log, emit, ret,
    log_and_rethrow, bind, console_error, emit, throw.
  cbn. destruct (status_response E (calls CheckJobStatus w)) as [data|e]; cbn; [|done].
  by destruct (get_prop data "job_state").
Qed.

(** The loop is left on [Completed] only when a response said so, after
    responses that were not terminal. *)
Lemma poll_completed_inv n : forall a st w st' w',
  poll C E n a st w = (Normal st', w') ->
  strict_eq_str st "Completed" = false ->
  strict_eq_str st' "Completed" = true ->
  exists k, k < n
    /\ (forall i, i < k -> pending (status_response E (calls CheckJobStatus w + i)))
    /\ reports (status_response E (calls CheckJobStatus w + k)) (JStr "Completed").
Proof.
  induction n as [|n IH]; intros a st w st' w' Hrun Hst Hst'.
  { cbn in Hrun. injection Hrun as <- <-. congruence. }
  cbn [poll] in Hrun. unfold bind at 1 in Hrun. rewrite checkJobStatus_cases in Hrun.
  destruct (status_response E (calls CheckJobStatus w)) as [data|e] eqn:Hr; [|done].
  destruct (get_prop data "job_state") as [err|state] eqn:Hs; [done|].
  unfold bind at 1 in Hrun. rewrite Hs in Hrun. cbn [lift ret] in Hrun.
  destruct (strict_eq_str state "Completed") eqn:Hc.
  { exists 0. split; [lia|]. split; [intros i Hi; lia|].
    rewrite Nat.add_0_r. exists data. split; [done|].
    by apply strict_eq_str_true in Hc as ->. }
  destruct (strict_eq_str state "Failed") eqn:Hf.
  { unfold bind, console_log in Hrun. cbn in Hrun.
    by destruct (get_prop data "error_message"). }
  unfold console_log, sleep in Hrun.
  rewrite !bind_normal with (1 := emit_record _ _) in Hrun.
  rewrite record_record in Hrun.
  apply IH in Hrun as (k & Hk & Hp & Hdone); [|done|done].
  match type of Hdone with context [calls CheckJobStatus ?w1] =>
    assert (calls CheckJobStatus w1 = calls CheckJobStatus w + 1) as Hw1
      by (rewrite !calls_record; cbn; lia)
  end.
  rewrite Hw1 in Hdone. setoid_rewrite Hw1 in Hp.
  exists (S k). split; [lia|]. split.
  - intros [|i] Hi.
    + rewrite Nat.add_0_r. exists state. split; [by exists data|].
      by apply nonterminal_spec.
    + replace (calls CheckJobStatus w + S i) with (calls CheckJobStatus w + 1 + i) by lia.
      apply Hp. lia.
  - by replace (calls CheckJobStatus w + S k) with (calls CheckJobStatus w + 1 + k) by lia.
Qed.

(** X3. The download starts only after a status response said
    [Completed]: if a run enters [downloadResults], then one of its
    status checks, within the attempts allowed, was answered
    [Completed], and every check before it got a state that is not
    terminal. *)
Theorem download_only_after_completed w :
  calls DownloadResults (snd (workflow C E w)) <> calls DownloadResults w ->
  exists k, k < maxAttempts C
    /\ (forall i, i < k -> pending (status_response E (calls CheckJobStatus w + i)))
    /\ reports (status_response E (calls CheckJobStatus w + k)) (JStr "Completed").
Proof.
  intros Hdl. rewrite workflow_split in Hdl. unfold bind at 1 in Hdl.
  pose proof (prelude_keeps_calls C E DownloadResults (or_intror eq_refl) w) as Hp1.
  pose proof (prelude_keeps_calls C E CheckJobStatus (or_introl eq_refl) w) as Hp2.
  destruct (prelude C E w) as [[x| |e|c] w1]; cbn [snd] in *; try done.
  unfold monitor in Hdl. unfold bind at 1 in Hdl.
  pose proof (poll_keeps_calls C E DownloadResults (maxAttempts C) 0 (JStr "")
                ltac:(done) w1) as Hp3.
  destruct (poll C E (maxAttempts C) 0 (JStr "") w1) as [[st| |e|c] w2] eqn:Hrun;
    cbn [snd] in *; try congruence.
  destruct (strict_eq_str st "Completed") eqn:Hst; cbn [negb] in Hdl.
  - rewrite <- Hp2. by eapply poll_completed_inv.
  - unfold console_log, bind in Hdl. cbn in Hdl. unfold calls, count_events in *.
    cbn in Hdl. congruence.
Qed.

(** X4. A status check that is rejected ends the run: after [k] states
    that are not terminal, the rejection of the next check is logged by
    [checkJobStatus], thrown through the loop with no further check and
    no download, and [main] ends the process with status 1. *)
Theorem rejected_status_check_ends_run w x w1 k e :
  prelude C E w = (Normal x, w1) ->
  k < maxAttempts C ->
  (forall i, i < k -> pending (status_response E (calls CheckJobStatus w + i))) ->
  status_response E (calls CheckJobStatus w + k) = Rejected e ->
  exists w2,
    workflow C E w = (Thrown e, w2)
    /\ calls CheckJobStatus w2 = calls CheckJobStatus w + S k
    /\ calls DownloadResults w2 = calls DownloadResults w
    /\ head (trace w2) = Some (ConsoleError [JStr "Error checking job status:"; diagnostic e])
    /\ exit_status (main C E w) = 1%Z.
Proof.
  intros Hpre Hk Hp Hr.
  destruct (prelude_then C E w x w1 Hpre) as (Hw & Hc & Hdl & _).
  rewrite <- Hc in Hp, Hr.
  destruct (poll_skip C E k (maxAttempts C - k) 0 (JStr "") w1 Hp)
    as (st' & w' & Hrun & Hcalls & _ & _ & _ & _ & _ & _ & Hdl' & _).
  replace (k + (maxAttempts C - k)) with (maxAttempts C) in Hrun by lia.
  destruct (maxAttempts C - k) as [|n] eqn:Hn; [lia|].
  rewrite <- Hcalls in Hr.
  cbn [poll] in Hrun. unfold bind at 1 in Hrun.
  rewrite checkJobStatus_cases, Hr in Hrun.
  eexists. split.
  { rewrite Hw. unfold monitor. by rewrite (bind_thrown _ _ _ _ _ Hrun). }
  split; [by rewrite calls_record, Hcalls, Hc; cbn; lia|].
  split; [by rewrite calls_record, Hdl', Hdl; cbn; lia|].
  split; [done|].
  unfold main, try_catch, exit_status. rewrite Hw. unfold monitor.
  by rewrite (bind_thrown _ _ _ _ _ Hrun).
Qed.

Lemma poll_keeps_disk n : forall a st, keeps disk (poll C E n a st).
Proof.
  induction n as [|n IH]; intros a st; cbn [poll]; [apply keeps_ret|].
  apply keeps_bind.
  { intros w. by rewrite checkJobStatus_cases; repeat case_match. }
  intros data. apply keeps_bind; [apply keeps_lift|]. intros state.
  unfold console_log, sleep.
  repeat first
    [ progress intros | by apply keeps_emit | apply IH
    | apply keeps_bind | apply keeps_ret | apply keeps_return | apply keeps_lift
    | match goal with |- keeps _ (if ?b then _ else _) => destruct b end ].
Qed.

Lemma prelude_keeps_disk : keeps disk (prelude C E).
Proof.
  unfold prelude, initializeJob, getAudioStream, uploadFile, startJob,
    log_and_rethrow, console_log, console_error, existsSync.
  repeat first
    [ progress intros
    | by apply keeps_emit | by apply keeps_axios
    | apply keeps_bind | apply keeps_try_catch
    | apply keeps_ret | apply keeps_throw | apply keeps_get | apply keeps_lift
    | match goal with
      | |- keeps _ (if ?b then _ else _) => destruct b
      end
    | done ].
Qed.

(** X5. Nothing but the download touches the disk: a run that does not
    enter [downloadResults] leaves every file and directory as it
    was. *)
Theorem disk_written_only_by_download w :
  calls DownloadResults (snd (script C E w)) = calls DownloadResults w ->
  files (snd (script C E w)) = files w /\ dirs (snd (script C E w)) = dirs w.
Proof.
  intros Hdl.
  assert (disk (snd (script C E w)) = disk w) as [= -> ->]; [|done].
  assert (calls DownloadResults (snd (workflow C E w)) = calls DownloadResults w ->
          disk (snd (workflow C E w)) = disk w) as Hwork.
  { destruct (workflow C E w) as [c w'] eqn:Hrun. cbn [snd]. intros Hc.
    rewrite workflow_split in Hrun. unfold bind in Hrun.
    pose proof (prelude_keeps_disk w) as Hd1.
    pose proof (prelude_keeps_calls C E DownloadResults (or_intror eq_refl) w) as Hc1.
    destruct (prelude C E w) as [[x| |e|c0] w1]; cbn [snd] in *;
      try (injection Hrun as <- <-; done).
    unfold monitor in Hrun. unfold bind at 1 in Hrun.
    pose proof (poll_keeps_disk (maxAttempts C) 0 (JStr "") w1) as Hd2.
    pose proof (poll_keeps_calls C E DownloadResults (maxAttempts C) 0 (JStr "")
                  ltac:(done) w1) as Hc2.
    destruct (poll C E (maxAttempts C) 0 (JStr "") w1) as [[st| |e|c0] w2];
      cbn [snd] in *; try (injection Hrun as <- <-; congruence).
    destruct (negb (strict_eq_str st "Completed")).
    - cbn in Hrun. injection Hrun as <- <-. unfold disk in *. cbn. congruence.
    - destruct (after_success_calls C E w2) as [_ Hc3]. rewrite Hrun in Hc3.
      cbn [snd] in Hc3. lia. }
  revert Hdl. unfold script.
  assert (calls DownloadResults (snd (main C E w)) = calls DownloadResults w ->
          disk (snd (main C E w)) = disk w) as Hmain.
  { unfold main, try_catch.
    by destruct (workflow C E w) as [[x| |e|c] w'] eqn:Hrun; cbn [snd] in *. }
  destruct (SARVAM_API_KEY E) as [[|c s]|]; [done|exact Hmain|done].
Qed.

(** X6. The status the process ends with is 1 exactly when the key is
    missing or a step of the workflow threw, and 0 in every other run;
    no other status occurs. *)
Theorem exit_status_characterised w :
  exit_status (script C E w)
  = (if has_key E then
       match fst (workflow C E w) with
       | Thrown _ => 1
       | _ => 0
       end
     else 1)%Z.
Proof.
  destruct (has_key E) eqn:Hkey.
  - rewrite (script_with_key C E w Hkey). unfold main, try_catch, exit_status.
    pose proof (workflow_no_exit C E w) as Hne.
    destruct (workflow C E w) as [[x| |e|c] w']; cbn in *; try done.
    by destruct (Hne c).
  - by rewrite (script_without_key C E w Hkey).
Qed.

Lemma initializeJob_normal_inv w data w' :
  initializeJob C E w = (Normal data, w') ->
  init_response E = Resolved data
  /\ get_prop data "job_id" = inr (jobId w')
  /\ get_prop data "input_storage_path" = inr (inputStoragePath w')
  /\ get_prop data "output_storage_path" = inr (outputStoragePath w').
Proof.
  unfold initializeJob, bind, emit, console_log, emit, try_catch, axios, bind, emit,
    lift, set_jobId, set_inputStoragePath, set_outputStoragePath, log_and_rethrow,
    bind, console_error, emit, throw, ret.
  cbn. destruct (init_response E) as [d|e0]; cbn; [|done].
  destruct d; cbn; try done; by intros [= <- <-].
Qed.

(** The three fields of the client. *)
Lemma getAudioStream_keeps_client w r w' :
  getAudioStream C E w = (r, w') ->
  jobId w' = jobId w /\ inputStoragePath w' = inputStoragePath w
  /\ outputStoragePath w' = outputStoragePath w.
Proof.
  unfold getAudioStream, bind, emit, axios, bind, emit, existsSync, bind, emit, get, ret, throw.
  destruct (startsWith (AUDIO_SOURCE C) "http"); cbn.
  - destruct (source_response E); by intros [= <- <-].
  - destruct (negb _); by intros [= <- <-].
Qed.

Lemma uploadFile_normal_inv s n w data w' :
  uploadFile E s n w = (Normal data, w') ->
  upload_response E (upload_url w n) = Resolved data
  /\ w' = record [ Invoke UploadFile;
                   ConsoleLog [JStr (nl +:+ "📤 Uploading file to input storage...")];
                   Http PUT (JStr (upload_url w n));
                   ConsoleLog [JStr "File uploaded successfully"] ] w.
Proof.
  unfold uploadFile, bind, emit, console_log, emit, try_catch, axios, bind, emit, get,
    log_and_rethrow, bind, console_error, emit, throw, ret, upload_url.
  cbn. destruct (upload_response E _) as [d|e0]; cbn; [|done].
  by intros [= <- <-].
Qed.

Lemma startJob_normal_inv w data w' :
  startJob C E w = (Normal data, w') ->
  start_response E = Resolved data
  /\ w' = record [ Invoke StartJob;
                   ConsoleLog [JStr (nl +:+ "▶️ Starting job...")];
                   Http POST (JStr (BASE_URL C +:+ "job"));
                   ConsoleLog [JStr "Job started successfully"] ] w.
Proof.
  unfold startJob, bind, emit, console_log, emit, try_catch, axios, bind, emit,
    log_and_rethrow, bind, console_error, emit, throw, ret.
  cbn. destruct (start_response E) as [d|e0]; cbn; [|done].
  by intros [= <- <-].
Qed.

(** X7. When the first three steps succeed, the client holds the job
    identifier and the two storage locations of the init response, the
    audio was sent to the input location under the encoded name inferred
    from the source, and that upload and the start request were
    accepted. *)
Theorem prelude_establishes w x w1 :
  prelude C E w = (Normal x, w1) ->
  exists data uploaded,
    init_response E = Resolved data
    /\ get_prop data "job_id" = inr (jobId w1)
    /\ get_prop data "input_storage_path" = inr (inputStoragePath w1)
    /\ get_prop data "output_storage_path" = inr (outputStoragePath w1)
    /\ upload_response E (upload_url w1 (file_name (AUDIO_SOURCE C))) = Resolved uploaded
    /\ start_response E = Resolved x
    /\ In (Http PUT (JStr (upload_url w1 (file_name (AUDIO_SOURCE C))))) (trace w1)
    /\ disk w1 = disk w.
Proof.
  intros Hpre.
  pose proof (prelude_keeps_disk w) as Hd. rewrite Hpre in Hd. cbn [snd] in Hd.
  unfold prelude in Hpre. unfold bind at 1 in Hpre.
  destruct (initializeJob C E w) as [[data| |e|c] wa] eqn:Hinit; try done.
  apply initializeJob_normal_inv in Hinit as (Hi & Hj & Hin & Hout).
  unfold bind at 1 in Hpre.
  destruct (getAudioStream C E wa) as [[source| |e|c] wb] eqn:Hsrc; try done.
  pose proof (getAudioStream_name C E wa source wb Hsrc) as Hname.
  apply getAudioStream_keeps_client in Hsrc as (Hj' & Hin' & Hout').
  unfold bind at 1 in Hpre.
  destruct (uploadFile E _ _ wb) as [[uploaded| |e|c] wc] eqn:Hup; try done.
  apply uploadFile_normal_inv in Hup as (Hur & ->).
  apply startJob_normal_inv in Hpre as (Hst & ->).
  exists data, uploaded. unfold upload_url in *. cbn.
  rewrite Hin' in Hur. rewrite Hj', Hin', Hout', <- Hname.
  repeat split; try done. do 5 right. by left.
Qed.

End StatusChecks.

Section StatusScenario.
Import Sarvam Scenario.

Lemma download_only_after_completed_witness :
  exists k, k < 3
    /\ (forall i, i < k ->
          pending (status_response
                     (service [state "Running"; state "Running"; state "Completed"])
                     (calls CheckJobStatus empty_disk + i)))
    /\ reports (status_response
                  (service [state "Running"; state "Running"; state "Completed"])
                  (calls CheckJobStatus empty_disk + k)) (JStr "Completed").
Proof.
  apply (download_only_after_completed three_attempts
           (service [state "Running"; state "Running"; state "Completed"]) empty_disk).
  vm_compute. lia.
Defined.

Lemma rejected_status_check_ends_run_witness :
  exists w2,
    workflow three_attempts
      (service [state "Running"; Rejected (Error JUndefined "socket hang up")]) empty_disk
    = (Thrown (Error JUndefined "socket hang up"), w2)
    /\ calls CheckJobStatus w2 = 0 + 2
    /\ calls DownloadResults w2 = 0
    /\ head (trace w2)
       = Some (ConsoleError [JStr "Error checking job status:"; JStr "socket hang up"])
    /\ exit_status (main three_attempts
                      (service [state "Running"; Rejected (Error JUndefined "socket hang up")])
                      empty_disk) = 1%Z.
Proof.
  eapply (rejected_status_check_ends_run three_attempts
            (service [state "Running"; Rejected (Error JUndefined "socket hang up")])
            empty_disk _ _ 1).
  - vm_compute. reflexivity.
  - vm_compute. lia.
  - intros i Hi. assert (i = 0) as -> by lia.
    exists (JStr "Running"). split; [|reflexivity].
    exists (JObj [("job_state", JStr "Running")]). split; reflexivity.
  - reflexivity.
Defined.

Lemma disk_written_only_by_download_witness :
  files (snd (script three_attempts (service [failed "bad audio"]) empty_disk)) = ∅
  /\ dirs (snd (script three_attempts (service [failed "bad audio"]) empty_disk)) = ∅.
Proof.
  apply (disk_written_only_by_download three_attempts (service [failed "bad audio"])
           empty_disk).
  vm_compute. reflexivity.
Defined.

Lemma prelude_establishes_witness :
  exists data uploaded,
    init_response (service []) = Resolved data
    /\ get_prop data "job_id" = inr (JStr "job-1")
    /\ get_prop data "input_storage_path" = inr (JStr "https://storage.example/in")
    /\ get_prop data "output_storage_path" = inr (JStr "https://storage.example/out")
    /\ upload_response (service []) "https://storage.example/in/clip.wav" = Resolved uploaded.
Proof.
  destruct (prelude_establishes three_attempts (service []) empty_disk (JObj [])
              (snd (prelude three_attempts (service []) empty_disk)))
    as (data & uploaded & H1 & H2 & H3 & H4 & H5 & _).
  - vm_compute. reflexivity.
  - exists data, uploaded. repeat split; assumption.
Defined.

End StatusScenario.

(** ** The download, for any listing *)

Section AnyListing.
Import Sarvam Scenario.

Variable C : config.
Variable E : env.

(** Up to the answer to the listing request. *)
Lemma downloadResults_prepared w data :
  mkdir_result E = None ->
  list_response E = Resolved data ->
  downloadResults C E w
  = try_catch
      (let* entries := lift (iterate data) in
       download_each C E entries >>
       console_log [JStr "All files downloaded successfully"])
      (log_and_rethrow "Error downloading results:")
      (prepared C w).
Proof.
  intros Hmk Hlist.
  unfold downloadResults, prepared, setup_events, try_catch, bind, console_log, emit,
    existsSync, bind, emit, get, mkdirSync, bind, emit, axios, bind, emit, record.
  cbn. rewrite Hlist, Hmk. cbn.
  unfold present at 1. cbn [dirs files]. fold (present w (DESTINATION_DIR C)).
  by destruct (present w (DESTINATION_DIR C)).
Qed.

Lemma download_each_app l1 l2 w :
  download_each C E (l1 ++ l2) w
  = (download_each C E l1 >> download_each C E l2) w.
Proof.
  revert w. induction l1 as [|file l1 IH]; intros w; [done|].
  cbn [download_each app]. unfold bind.
  destruct (download_one C E file w) as [[[]| |e|c] w1]; try done.
Qed.

(** Two names have the same path under a directory only if they are
    the same name. *)
Lemma destination_path_inj d n m : d +:+ "/" +:+ n = d +:+ "/" +:+ m -> n = m.
Proof. intros H. by do 2 apply (inj (String.append _)) in H. Qed.

(** A listing whose downloads and writes all go well. *)
Lemma download_each_finished entries names : forall w,
  Forall2 named entries names ->
  (forall n, n ∈ names ->
     exists body,
       file_response E (to_String (outputStoragePath w) +:+ "/" +:+ n) = Resolved body
       /\ write_result E (DESTINATION_DIR C +:+ "/" +:+ n) = Finished) ->
  exists w',
    download_each C E entries w = (Normal tt, w')
    /\ history w' = history w ++ concat (map (download_events C (outputStoragePath w)) names)
    /\ jobId w' = jobId w /\ inputStoragePath w' = inputStoragePath w
    /\ outputStoragePath w' = outputStoragePath w
    /\ dirs w' = dirs w
    /\ (forall n body, n ∈ names ->
          file_response E (to_String (outputStoragePath w) +:+ "/" +:+ n) = Resolved body ->
          files w' !! (DESTINATION_DIR C +:+ "/" +:+ n) = Some body)
    /\ (forall p, (forall n, n ∈ names -> p <> DESTINATION_DIR C +:+ "/" +:+ n) ->
          files w' !! p = files w !! p).
Proof.
  intros w Hnamed. revert w.
  induction Hnamed as [|file name entries names Hname _ IH]; intros w Hok.
  { exists w. cbn. rewrite app_nil_r. repeat split; try done.
    intros n body Hn. by apply elem_of_nil in Hn. }
  destruct (Hok name) as (body & Hbody & Hwrite); [by left|].
  cbn [download_each].
  rewrite (bind_normal _ _ _ _ _ (download_one_finished C E w file name body Hname Hbody Hwrite)).
  match goal with |- context [download_each C E entries ?w1'] => set (w1 := w1') end.
  destruct (IH w1) as (w' & Hrun & Hhist & Hj & Hi & Ho & Hd & Hin & Hout).
  { intros n Hn. apply Hok. by right. }
  exists w'. split; [done|].
  split. { rewrite Hhist. unfold w1. rewrite history_record. cbn. by rewrite <- app_assoc. }
  do 4 (split; [done|]). split.
  - intros n b Hn Hb. destruct (decide (n ∈ names)) as [Hrest|Hrest].
    + by apply Hin.
    + apply elem_of_cons in Hn as [->|Hn]; [|done].
      rewrite Hout.
      * unfold w1. cbn. rewrite lookup_insert_eq. congruence.
      * intros m Hm Heq. apply destination_path_inj in Heq. by subst.
  - intros p Hp. rewrite Hout.
    + unfold w1. cbn. rewrite lookup_insert_ne; [done|].
      intros Heq. by apply (Hp name); [left|].
    + intros n Hn. apply Hp. by right.
Qed.

(** X8. For any listing of plain file names (one path segment each,
    not [.] or [..]) whose downloads and writes all go well,
    [downloadResults] fetches the artifacts one after the other in the
    order of the listing, each write ended before the next request; an
    empty listing downloads nothing.  Afterwards every listed name has a
    file in the destination directory with the bytes served for it. *)
Theorem downloads_follow_listing w entries names :
  mkdir_result E = None ->
  list_response E = Resolved (JArr entries) ->
  Forall2 named entries names ->
  Forall plain names ->
  (forall n, n ∈ names ->
     exists body,
       file_response E (to_String (outputStoragePath w) +:+ "/" +:+ n) = Resolved body
       /\ write_result E (DESTINATION_DIR C +:+ "/" +:+ n) = Finished) ->
  exists w',
    downloadResults C E w = (Normal tt, w')
    /\ history w'
       = history w ++ setup_events C w
         ++ concat (map (download_events C (outputStoragePath w)) names)
         ++ [ConsoleLog [JStr "All files downloaded successfully"]]
    /\ (forall n body, n ∈ names ->
          file_response E (to_String (outputStoragePath w) +:+ "/" +:+ n) = Resolved body ->
          files w' !! (DESTINATION_DIR C +:+ "/" +:+ n) = Some body).
Proof.
  intros Hmk Hlist Hnamed _ Hok.
  rewrite (downloadResults_prepared w _ Hmk Hlist).
  destruct (download_each_finished entries names (prepared C w) Hnamed Hok)
    as (w' & Hrun & Hhist & _ & _ & _ & _ & Hin & _).
  exists (record [ConsoleLog [JStr "All files downloaded successfully"]] w').
  split.
  { unfold try_catch, bind at 1. cbn [lift iterate ret]. unfold bind at 1.
    rewrite Hrun. reflexivity. }
  split.
  { rewrite history_record, Hhist. unfold prepared at 1. rewrite history_record.
    cbn [outputStoragePath prepared record]. unfold history at 1. cbn [trace].
    by rewrite <- !app_assoc. }
  exact Hin.
Qed.

(** X9. A download that is rejected ends [downloadResults]: the error
    is logged and thrown on, the entries after it in the listing are
    never requested, and the files already written, those of the plain
    names before it, stay in the destination directory. *)
Theorem rejected_download_aborts_rest w good names bad n rest e :
  mkdir_result E = None ->
  list_response E = Resolved (JArr (good ++ bad :: rest)) ->
  Forall2 named good names ->
  Forall plain names ->
  (forall m, m ∈ names ->
     exists body,
       file_response E (to_String (outputStoragePath w) +:+ "/" +:+ m) = Resolved body
       /\ write_result E (DESTINATION_DIR C +:+ "/" +:+ m) = Finished) ->
  named bad n ->
  file_response E (to_String (outputStoragePath w) +:+ "/" +:+ n) = Rejected e ->
  exists w',
    downloadResults C E w = (Thrown e, w')
    /\ history w'
       = history w ++ setup_events C w
         ++ concat (map (download_events C (outputStoragePath w)) names)
         ++ [ Http GET (JStr (to_String (outputStoragePath w) +:+ "/" +:+ n));
              ConsoleError [JStr "Error downloading results:"; diagnostic e] ]
    /\ (forall m body, m ∈ names ->
          file_response E (to_String (outputStoragePath w) +:+ "/" +:+ m) = Resolved body ->
          files w' !! (DESTINATION_DIR C +:+ "/" +:+ m) = Some body).
Proof.
  intros Hmk Hlist Hnamed _ Hok Hbad Hrej.
  rewrite (downloadResults_prepared w _ Hmk Hlist).
  destruct (download_each_finished good names (prepared C w) Hnamed Hok)
    as (w1 & Hrun & Hhist & _ & _ & Ho & _ & Hin & _).
  assert (download_one C E bad w1
          = (Thrown e,
             record [Http GET (JStr (to_String (outputStoragePath w) +:+ "/" +:+ n))] w1))
    as Hone.
  { assert (outputStoragePath w1 = outputStoragePath w) as Ho' by exact Ho.
    rewrite <- Ho' in Hrej |- *.
    unfold download_one, bind, get, lift, axios, bind, emit. cbn.
    rewrite Hbad. cbn. by rewrite Hrej. }
  eexists. split.
  { unfold try_catch, bind at 1. cbn [lift iterate ret]. unfold bind at 1.
    rewrite download_each_app. rewrite (bind_normal _ _ _ _ _ Hrun).
    cbn [download_each]. rewrite (bind_thrown _ _ _ _ _ Hone).
    unfold log_and_rethrow, console_error.
    rewrite (bind_normal _ _ _ _ _ (emit_record _ _)). unfold throw.
    rewrite record_record. reflexivity. }
  split.
  { rewrite history_record, Hhist. unfold prepared at 1. rewrite history_record.
    cbn [outputStoragePath prepared record]. unfold history at 1. cbn [trace].
    by rewrite <- !app_assoc. }
  exact Hin.
Qed.

(** X10. A listing that cannot be iterated (null, undefined or an
    object) makes [downloadResults] throw before any download: the
    listing request is the only one made, and no file changes. *)
Theorem unusable_listing_downloads_nothing w data e :
  mkdir_result E = None ->
  list_response E = Resolved data ->
  iterate data = inl e ->
  exists w',
    downloadResults C E w = (Thrown e, w')
    /\ history w'
       = history w ++ setup_events C w
         ++ [ConsoleError [JStr "Error downloading results:"; diagnostic e]]
    /\ files w' = files w.
Proof.
  intros Hmk Hlist Hiter.
  rewrite (downloadResults_prepared w _ Hmk Hlist).
  eexists. split.
  { unfold try_catch, bind at 1. rewrite Hiter. cbn [lift]. unfold throw at 1.
    unfold log_and_rethrow, console_error.
    rewrite (bind_normal _ _ _ _ _ (emit_record _ _)). unfold throw. reflexivity. }
  split; [|done].
  rewrite history_record. unfold prepared. rewrite history_record.
  unfold history at 1. cbn [trace]. by rewrite <- !app_assoc.
Qed.

(** X17. When the destination directory is not there and cannot be
    made, [downloadResults] throws that error before any request: the
    listing is never asked for and no file changes. *)
Theorem unmakeable_directory_requests_nothing w e :
  present w (DESTINATION_DIR C) = false ->
  mkdir_result E = Some e ->
  exists w',
    downloadResults C E w = (Thrown e, w')
    /\ history w'
       = history w
         ++ [ Invoke DownloadResults;
              ConsoleLog [JStr (nl +:+ "📥 Downloading results...")];
              ExistsSync (DESTINATION_DIR C);
              MkdirSync (DESTINATION_DIR C);
              ConsoleError [JStr "Error downloading results:"; diagnostic e] ]
    /\ disk w' = disk w.
Proof.
  intros Hp Hmk. eexists. split.
  { unfold downloadResults, try_catch, bind, console_log, emit, existsSync, bind, emit, get,
      mkdirSync, bind, emit, log_and_rethrow, bind, console_error, emit, throw.
    cbn. unfold present at 1. cbn [dirs files]. fold (present w (DESTINATION_DIR C)).
    rewrite Hp, Hmk. cbn. reflexivity. }
  split; [|done]. unfold history. cbn. by rewrite <- !app_assoc.
Qed.

End AnyListing.

Section AnyListingScenario.
Import Sarvam Scenario.

Lemma plain_a_json : plain "a.json".
Proof.
  repeat split; try discriminate. intros p q. by apply unsplit_no_separator.
Qed.

Lemma plain_b_txt : plain "b.txt".
Proof.
  repeat split; try discriminate. intros p q. by apply unsplit_no_separator.
Qed.

Lemma downloads_follow_listing_witness :
  exists w',
    downloadResults three_attempts (service []) initialized = (Normal tt, w')
    /\ history w'
       = [ Invoke DownloadResults;
           ConsoleLog [JStr (nl +:+ "📥 Downloading results...")];
           ExistsSync "./output"; MkdirSync "./output";
           Http GET (JStr "https://storage.example/out") ]
         ++ download_events three_attempts (JStr "https://storage.example/out") "a.json"
         ++ download_events three_attempts (JStr "https://storage.example/out") "b.txt"
         ++ [ConsoleLog [JStr "All files downloaded successfully"]]
    /\ files w' !! "./output/a.json" = Some a_json
    /\ files w' !! "./output/b.txt" = Some b_txt.
Proof.
  destruct (downloads_follow_listing three_attempts (service []) initialized
              [JObj [("name", JStr "a.json")]; JObj [("name", JStr "b.txt")]]
              ["a.json"; "b.txt"])
    as (w' & Hrun & Hhist & Hin).
  - reflexivity.
  - reflexivity.
  - repeat constructor.
  - constructor; [apply plain_a_json|]. constructor; [apply plain_b_txt|]. constructor.
  - intros n Hn. apply elem_of_cons in Hn as [->|Hn].
    + exists a_json. split; reflexivity.
    + apply elem_of_cons in Hn as [->|Hn]; [|inversion Hn].
      exists b_txt. split; reflexivity.
  - exists w'. split; [exact Hrun|]. split; [exact Hhist|]. split.
    + apply (Hin "a.json" a_json); [left|reflexivity].
    + apply (Hin "b.txt" b_txt); [right; left|reflexivity].
Defined.

(** a.json is written, b.txt is refused, c.log is never asked for. *)
Lemma rejected_download_aborts_rest_witness :
  exists w',
    downloadResults three_attempts b_missing initialized
    = (Thrown (Error (JStr "not found") "Request failed with status code 404"), w')
    /\ history w'
       = [ Invoke DownloadResults;
           ConsoleLog [JStr (nl +:+ "📥 Downloading results...")];
           ExistsSync "./output"; MkdirSync "./output";
           Http GET (JStr "https://storage.example/out") ]
         ++ download_events three_attempts (JStr "https://storage.example/out") "a.json"
         ++ [ Http GET (JStr "https://storage.example/out/b.txt");
              ConsoleError [ JStr "Error downloading results:";
                             diagnostic (Error (JStr "not found")
                                               "Request failed with status code 404") ] ]
    /\ files w' !! "./output/a.json" = Some a_json.
Proof.
  destruct (rejected_download_aborts_rest three_attempts b_missing initialized
              [JObj [("name", JStr "a.json")]] ["a.json"]
              (JObj [("name", JStr "b.txt")]) "b.txt"
              [JObj [("name", JStr "c.log")]]
              (Error (JStr "not found") "Request failed with status code 404"))
    as (w' & Hrun & Hhist & Hin).
  - reflexivity.
  - reflexivity.
  - repeat constructor.
  - constructor; [apply plain_a_json|]. constructor.
  - intros m Hm. apply elem_of_cons in Hm as [->|Hm]; [|inversion Hm].
    exists a_json. split; reflexivity.
  - reflexivity.
  - reflexivity.
  - exists w'. split; [exact Hrun|]. split; [exact Hhist|].
    apply (Hin "a.json" a_json); [left|reflexivity].
Defined.

Lemma unusable_listing_downloads_nothing_witness :
  exists w',
    downloadResults three_attempts
      (Env (Some "key") (Resolved job) (Resolved []) (fun _ => Resolved (JStr ""))
           (Resolved (JObj [])) (scripted []) (Resolved (JObj [("files", JArr [])]))
           remote_file None (fun _ => Finished))
      empty_disk
    = (Thrown (typeError "listResponse.data is not iterable"), w')
    /\ files w' = ∅.
Proof.
  destruct (unusable_listing_downloads_nothing three_attempts
              (Env (Some "key") (Resolved job) (Resolved []) (fun _ => Resolved (JStr ""))
                   (Resolved (JObj [])) (scripted []) (Resolved (JObj [("files", JArr [])]))
                   remote_file None (fun _ => Finished))
              empty_disk (JObj [("files", JArr [])])
              (typeError "listResponse.data is not iterable"))
    as (w' & Hrun & _ & Hf).
  - reflexivity.
  - reflexivity.
  - reflexivity.
  - exists w'. split; [exact Hrun | exact Hf].
Defined.

Lemma unmakeable_directory_requests_nothing_witness :
  exists w',
    downloadResults three_attempts
      (Env (Some "key") (Resolved job) (Resolved []) (fun _ => Resolved (JStr ""))
           (Resolved (JObj [])) (scripted []) (Resolved listing) remote_file
           (Some (mkError "EACCES: permission denied, mkdir './output'"))
           (fun _ => Finished))
      empty_disk
    = (Thrown (mkError "EACCES: permission denied, mkdir './output'"), w')
    /\ disk w' = disk empty_disk.
Proof.
  destruct (unmakeable_directory_requests_nothing three_attempts
              (Env (Some "key") (Resolved job) (Resolved []) (fun _ => Resolved (JStr ""))
                   (Resolved (JObj [])) (scripted []) (Resolved listing) remote_file
                   (Some (mkError "EACCES: permission denied, mkdir './output'"))
                   (fun _ => Finished))
              empty_disk (mkError "EACCES: permission denied, mkdir './output'"))
    as (w' & Hrun & _ & Hd).
  - reflexivity.
  - reflexivity.
  - exists w'. split; [exact Hrun | exact Hd].
Defined.

End AnyListingScenario.

(** ** Names and upload addresses *)

Section Names.
Import Sarvam Scenario.

(** X11. The inferred file name is never empty and never contains a
    [/]: it is one path segment, whatever the source specifier. *)
Theorem file_name_is_a_segment source :
  file_name source <> ""
  /\ forall p q, file_name source <> p +:+ "/" +:+ q.
Proof.
  rewrite file_name_last_segment. unfold last_segment.
  pose proof (split_segment "/" source) as Hall.
  pose proof (split_nonempty "/" source) as Hne.
  destruct (last (split "/" source)) as [seg|] eqn:Hl; [|by apply last_None in Hl].
  cbn [default from_option id].
  assert (split "/" seg = [seg]) as Hseg.
  { apply last_Some in Hl as [l' Hl]. rewrite Hl in Hall.
    apply Forall_app in Hall as [_ Hall]. by inversion Hall. }
  destruct (String.eqb_spec seg "") as [->|Hnonempty].
  - split; [done|]. intros p q. by apply unsplit_no_separator.
  - split; [done|]. intros p q. by apply unsplit_no_separator.
Qed.

Lemma hex_digit_no_slash n : Ascii.eqb (hex_digit n) "/" = false.
Proof. unfold hex_digit. by repeat case_match. Qed.

Lemma unreserved_no_slash c : unreserved c = true -> Ascii.eqb c "/" = false.
Proof.
  intros H. destruct (Ascii.eqb_spec c "/") as [->|]; [|done].
  vm_compute in H. discriminate.
Qed.

(** An encoded name is one segment. *)
Lemma encodeURIComponent_segment s :
  split "/" (encodeURIComponent s) = [encodeURIComponent s].
Proof.
  induction s as [|c s IH]; [done|]. cbn [encodeURIComponent].
  destruct (unreserved c) eqn:Hc.
  - cbn [split]. by rewrite (unreserved_no_slash c Hc), IH.
  - cbn [split]. rewrite !hex_digit_no_slash, IH. reflexivity.
Qed.

Lemma escape_inj a c :
  hex_digit (N_of_ascii a / 16) = hex_digit (N_of_ascii c / 16) ->
  hex_digit (N_of_ascii a mod 16) = hex_digit (N_of_ascii c mod 16) ->
  a = c.
Proof.
  intros H1 H2.
  assert (forallb (fun x => forallb (fun y =>
            implb (Ascii.eqb (hex_digit (N_of_ascii x / 16)) (hex_digit (N_of_ascii y / 16))
                   && Ascii.eqb (hex_digit (N_of_ascii x mod 16))
                                (hex_digit (N_of_ascii y mod 16)))
                  (Ascii.eqb x y))
            (map ascii_of_nat (seq 0 256))) (map ascii_of_nat (seq 0 256)) = true) as Hall
    by (vm_compute; reflexivity).
  assert (forall x, In x (map ascii_of_nat (seq 0 256))) as Hin.
  { intros x. apply in_map_iff. exists (nat_of_ascii x).
    split; [apply ascii_nat_embedding|]. apply in_seq.
    pose proof (nat_ascii_bounded x). lia. }
  rewrite forallb_forall in Hall. specialize (Hall a (Hin a)).
  rewrite forallb_forall in Hall. specialize (Hall c (Hin c)).
  rewrite H1, H2, !Ascii.eqb_refl in Hall. cbn in Hall.
  by apply Ascii.eqb_eq.
Qed.

Lemma encodeURIComponent_inj s : forall t,
  encodeURIComponent s = encodeURIComponent t -> s = t.
Proof.
  assert (forall c, unreserved c = true -> c <> "%"%char) as Hpercent.
  { intros c Hc ->. vm_compute in Hc. discriminate. }
  induction s as [|a s IH]; intros [|c t]; cbn [encodeURIComponent].
  - done.
  - by destruct (unreserved c).
  - by destruct (unreserved a).
  - destruct (unreserved a) eqn:Ha, (unreserved c) eqn:Hc.
    + intros [= -> Heq]. f_equal. by apply IH.
    + intros [= -> _]. by destruct (Hpercent _ Ha).
    + intros [= <- _]. by destruct (Hpercent _ Hc).
    + intros [= H1 H2 Heq]. f_equal; [by apply escape_inj | by apply IH].
Qed.

Variable E : env.

(** X12. An upload that is accepted went, by one PUT, to the input
    location followed by one more path segment, the encoded file name;
    the client and the disk are as before. *)
Theorem upload_address s n w data :
  upload_response E (upload_url w n) = Resolved data ->
  uploadFile E s n w
  = (Normal data,
     record [ Invoke UploadFile;
              ConsoleLog [JStr (nl +:+ "📤 Uploading file to input storage...")];
              Http PUT (JStr (upload_url w n));
              ConsoleLog [JStr "File uploaded successfully"] ] w)
  /\ last_segment (upload_url w n) = encodeURIComponent n
  /\ forall p q, encodeURIComponent n <> p +:+ "/" +:+ q.
Proof.
  intros Hup. split; [|split].
  - unfold uploadFile, bind, emit, console_log, emit, try_catch, axios, bind, emit, get,
      upload_url in *.
    cbn. rewrite Hup. reflexivity.
  - unfold upload_url. rewrite (last_segment_app _ (encodeURIComponent n)).
    unfold last_segment. by rewrite encodeURIComponent_segment.
  - intros p q. apply unsplit_no_separator, encodeURIComponent_segment.
Qed.

(** X13. Two different file names are never uploaded to the same
    address of a job. *)
Theorem distinct_names_distinct_addresses w n m :
  upload_url w n = upload_url w m -> n = m.
Proof.
  unfold upload_url. intros H.
  do 2 apply (inj (String.append _)) in H.
  by apply encodeURIComponent_inj.
Qed.

End Names.

Section NamesScenario.
Import Sarvam Scenario.

Lemma upload_address_witness :
  last_segment (upload_url (World (JStr "job-1") (JStr "https://storage.example/in")
                                  (JStr "https://storage.example/out") ∅ ∅ [])
                           "call 1/a.wav")
  = "call%201%2Fa.wav".
Proof.
  refine (proj1 (proj2 (upload_address (service []) (FileStream "call 1/a.wav") "call 1/a.wav"
                          (World (JStr "job-1") (JStr "https://storage.example/in")
                                 (JStr "https://storage.example/out") ∅ ∅ [])
                          (JStr "") _))).
  reflexivity.
Defined.

Lemma distinct_names_distinct_addresses_witness : "a b.wav" = "a b.wav".
Proof.
  apply (distinct_names_distinct_addresses empty_disk "a b.wav" "a b.wav").
  reflexivity.
Defined.

End NamesScenario.

(** * Further properties of main.js *)

Section Stamps.
Import Deepgram.

Lemma append_length s t : String.length (s +:+ t) = String.length s + String.length t.
Proof.
  induction s as [|a s IH]; [done|].
  change (String a s +:+ t) with (String a (s +:+ t)). cbn. by rewrite IH.
Qed.

(** Two strings that end in pieces of the same length are equal only
    piece by piece. *)
Lemma append_inj_suffix s1 : forall s2 t1 t2,
  String.length t1 = String.length t2 ->
  s1 +:+ t1 = s2 +:+ t2 -> s1 = s2 /\ t1 = t2.
Proof.
  induction s1 as [|a s1 IH]; intros [|b s2] t1 t2 Hlen Heq.
  - done.
  - apply (f_equal String.length) in Heq.
    rewrite !append_length in Heq. cbn in Heq. lia.
  - apply (f_equal String.length) in Heq.
    rewrite !append_length in Heq. cbn in Heq. lia.
  - change (String a s1 +:+ t1) with (String a (s1 +:+ t1)) in Heq.
    change (String b s2 +:+ t2) with (String b (s2 +:+ t2)) in Heq.
    injection Heq as -> Heq. destruct (IH s2 t1 t2 Hlen Heq) as [-> ->]. done.
Qed.

Lemma two_digits_inj m n :
  (0 <= m < 100)%Z -> (0 <= n < 100)%Z -> two_digits m = two_digits n -> m = n.
Proof.
  intros Hm Hn Heq.
  assert (forallb (fun x => forallb (fun y =>
            implb (String.eqb (two_digits x) (two_digits y)) (Z.eqb x y))
            (seqZ 0 100)) (seqZ 0 100) = true) as Hall by (vm_compute; reflexivity).
  rewrite forallb_forall in Hall.
  specialize (Hall m ltac:(apply list_elem_of_In, elem_of_seqZ; lia)).
  rewrite forallb_forall in Hall.
  specialize (Hall n ltac:(apply list_elem_of_In, elem_of_seqZ; lia)).
  rewrite Heq, String.eqb_refl in Hall. cbn in Hall. by apply Z.eqb_eq.
Qed.

(** X14. The stamp loses nothing but the rounding: two times that are
    not negative get the same [H:MM:SS] only if they round to the same
    second. *)
Theorem fmt_tells_seconds_apart t1 t2 :
  (0 <= t1)%Q -> (0 <= t2)%Q ->
  fmt t1 = fmt t2 -> Math_round t1 = Math_round t2.
Proof.
  intros H1 H2. rewrite !fmt_clock by done.
  pose proof (Math_round_nonneg t1 H1) as Hs1.
  pose proof (Math_round_nonneg t2 H2) as Hs2.
  generalize dependent (Math_round t2). generalize dependent (Math_round t1).
  intros s1 Hs1 s2 Hs2. unfold clock. intros Heq.
  apply append_inj_suffix in Heq as [Hh Hrest]; [|done].
  apply (inj pretty) in Hh.
  injection Hrest as Hm1 Hm2 Hsec1 Hsec2.
  assert (s1 mod 3600 / 60 = s2 mod 3600 / 60)%Z as Hm.
  { apply two_digits_inj; [| |unfold two_digits; congruence].
    - pose proof (Z.mod_pos_bound s1 3600).
      split; [apply Z.div_pos; lia|]. apply Z.div_lt_upper_bound; lia.
    - pose proof (Z.mod_pos_bound s2 3600).
      split; [apply Z.div_pos; lia|]. apply Z.div_lt_upper_bound; lia. }
  assert (s1 mod 60 = s2 mod 60)%Z as Hsec.
  { apply two_digits_inj; [| |unfold two_digits; congruence].
    - pose proof (Z.mod_pos_bound s1 60). lia.
    - pose proof (Z.mod_pos_bound s2 60). lia. }
  clear Hm1 Hm2 Hsec1 Hsec2.
  Z.div_mod_to_equations. lia.
Qed.

(** X15. A time that rounds below zero is not stamped as [H:MM:SS]: its
    stamp starts with a minus sign. *)
Theorem fmt_negative t :
  (Math_round t < 0)%Z -> exists rest, fmt t = "-" +:+ rest.
Proof.
  intros Hs. unfold fmt.
  assert (Math_round t / 3600 < 0)%Z as Hh by (Z.div_mod_to_equations; lia).
  destruct (Math_round t / 3600)%Z as [|h|h] eqn:Hd; try lia.
  eexists. unfold toString at 1, pretty at 1, pretty_Z.
  change (("-" +:+ ?x) +:+ ?y) with ("-" +:+ (x +:+ y)). reflexivity.
Qed.


End Stamps.

Section StampsScenario.
Import Deepgram.

Lemma fmt_tells_seconds_apart_witness : Math_round (7 # 5) = Math_round (1 # 1).
Proof.
  apply fmt_tells_seconds_apart.
  - unfold Qle; cbn; lia.
  - unfold Qle; cbn; lia.
  - vm_compute. reflexivity.
Defined.

Lemma fmt_negative_witness : exists rest, fmt (-(3 # 4)) = "-" +:+ rest.
Proof.
  apply fmt_negative. vm_compute. reflexivity.
Defined.

End StampsScenario.
